(** * pymuscle: the Muscle orchestrator and its preset constructors

    A shallow embedding of [pymuscle/muscle.py].  A [Muscle] owns a motor
    neuron pool model and a muscle fibers model, checks once that they agree
    on the number of motor units, and advances both by one step per call.
    The two preset subclasses choose the concrete models; [StandardMuscle]
    derives the motor unit count from a maximum force.

    Python objects are mutable and any call may raise, so a method is a
    function from the object's state to its new state and either a value or
    an exception.  Python floats are IEEE 754 binary64 numbers and are
    modelled by Rocq's primitive floats, which are the same format with the
    same rounding. *)

From Stdlib Require Import ZArith List Lia Bool QArith Qround Floats String.
Import ListNotations.

Set Warnings "-inexact-float".
Local Open Scope Z_scope.

(** ** Exceptions and results *)

(** The exceptions that [muscle.py] and the library calls it makes can raise
    by themselves, and [Exception] for whatever else a model chooses to
    raise.  A failed [assert] raises [AssertionError]. *)
Inductive exn : Type :=
| AssertionError
| ZeroDivisionError
| ValueError
| OverflowError
| TypeError
| MemoryError
| Exception (name : string).

Inductive result (A : Type) : Type :=
| Ok (a : A)
| Raise (e : exn).
Arguments Ok {A} a.
Arguments Raise {A} e.

Definition result_bind {A B : Type} (r : result A) (k : A -> result B) : result B :=
  match r with
  | Ok a => k a
  | Raise e => Raise e
  end.

Notation "'let*' x ':=' r 'in' k" := (result_bind r (fun x => k))
  (at level 10, x name, r at level 100, k at level 200).

(** A method of an object with state [Self]: the exception, when there is
    one, comes with the state the object was left in. *)
Definition method (Self A : Type) : Type := Self -> Self * result A.

Definition ret {Self A : Type} (a : A) : method Self A :=
  fun self => (self, Ok a).

Definition lift {Self A : Type} (r : result A) : method Self A :=
  fun self => (self, r).

Definition attr {Self A : Type} (get : Self -> A) : method Self A :=
  fun self => (self, Ok (get self)).

Definition bind {Self A B : Type} (c : method Self A) (k : A -> method Self B)
  : method Self B :=
  fun self =>
    match c self with
    | (self', Ok a) => k a self'
    | (self', Raise e) => (self', Raise e)
    end.

Declare Scope method_scope.
Delimit Scope method_scope with method.
Notation "x <- c ;; k" := (bind c (fun x => k))
  (at level 61, c at next level, right associativity) : method_scope.

(** ** Python values *)

(** Numbers as [step] tells them apart: [isinstance(x, float)] holds of a
    float, [isinstance(x, int)] of an int and of a bool, which is a subclass
    of int. *)
Inductive scalar : Type :=
| PyFloat (x : float)
| PyInt (n : Z)
| PyBool (b : bool).

Inductive pyobj : Type :=
| Scalar (v : scalar)
| NdArray (xs : list scalar)
| PyList (xs : list scalar)
| PyNone.

Definition isinstance_float (o : pyobj) : bool :=
  match o with
  | Scalar (PyFloat _) => true
  | _ => false
  end.

Definition isinstance_int (o : pyobj) : bool :=
  match o with
  | Scalar (PyInt _) | Scalar (PyBool _) => true
  | _ => false
  end.

(** What numpy needs of the machine: whether a block of so many bytes can
    be had.  The sizes are those of a 64-bit platform: an array index is a
    signed 64-bit integer, and an entry takes eight bytes for a float64 and
    for an int, one for a bool. *)
Module Numpy.
Class t : Type := { can_allocate : Z -> bool }.

Definition NPY_MAX_INTP : Z := 2 ^ 63 - 1.

Definition itemsize (v : scalar) : Z :=
  match v with
  | PyFloat _ | PyInt _ => 8
  | PyBool _ => 1
  end.
End Numpy.

(** [np.full(shape, fill_value)] with an integer shape and a scalar fill
    value: a one-dimensional array of [shape] copies.  numpy refuses a
    negative dimension with a [ValueError], and with a [ValueError] too a
    dimension, or a size in bytes, beyond the largest index; an array it
    cannot get the memory for is a [MemoryError].  A fill value that is no
    scalar is outside what [step] passes. *)
Definition np_full `{Numpy.t} (shape : Z) (fill_value : pyobj) : result pyobj :=
  match fill_value with
  | Scalar v =>
      if shape <? 0 then Raise ValueError
      else if Numpy.NPY_MAX_INTP <? shape * Numpy.itemsize v then Raise ValueError
      else if Numpy.can_allocate (shape * Numpy.itemsize v)
           then Ok (NdArray (repeat v (Z.to_nat shape)))
           else Raise MemoryError
  | _ => Raise TypeError
  end.

(** Lines 76 to 82 of [Muscle.step], on their own: what is a float or an
    int is replaced by [np.full(motor_unit_count, motor_pool_input)], and
    anything else is left as it is. *)
Definition expand `{Numpy.t} (motor_unit_count : Z) (motor_pool_input : pyobj)
  : result pyobj :=
  if isinstance_float motor_pool_input || isinstance_int motor_pool_input
  then np_full motor_unit_count motor_pool_input
  else Ok motor_pool_input.

(** ** Float arithmetic *)

(** [a / b] on floats: Python raises on a zero divisor, of either sign, and
    otherwise divides as IEEE 754 does. *)
Definition float_truediv (a b : float) : result float :=
  if PrimFloat.is_zero b then Raise ZeroDivisionError else Ok (a / b)%float.

(** [int(x)] on a float: the integral part, the fraction dropped whatever the
    sign; NaN is a [ValueError] and an infinity an [OverflowError].  A finite
    float is [(-1)^s * m * 2^e]; shifting the mantissa by [e] drops the
    fraction of the magnitude. *)
Definition int_of_spec_float (x : spec_float) : result Z :=
  match x with
  | S754_nan => Raise ValueError
  | S754_infinity _ => Raise OverflowError
  | S754_zero _ => Ok 0
  | S754_finite s m e => Ok (cond_Zopp s (Z.shiftl (Zpos m) e))
  end.

Definition py_int (x : float) : result Z := int_of_spec_float (Prim2SF x).

(** The rational number a finite float stands for. *)
Definition spec_float_value (x : spec_float) : option Q :=
  match x with
  | S754_zero _ => Some (0 # 1)
  | S754_finite s m e =>
      Some match e with
           | Z0 => cond_Zopp s (Zpos m) # 1
           | Zpos k => (cond_Zopp s (Zpos m) * 2 ^ Zpos k) # 1
           | Zneg k => cond_Zopp s (Zpos m) # (2 ^ k)%positive
           end
  | S754_infinity _ | S754_nan => None
  end.

Definition float_value (x : float) : option Q := spec_float_value (Prim2SF x).

(** ** The collaborator interface *)

(** What [Muscle] uses of a model object: its [motor_unit_count] attribute
    and its [step] method, called with positional arguments.  A step may
    change the object and may raise.  The fibers model also has a
    [current_forces] attribute. *)
Module Model.
Class t (O : Type) : Type := {
  motor_unit_count : O -> Z;
  step : O -> list pyobj -> O * result pyobj
}.

Class fibers (O : Type) : Type := {
  fibers_model : t O;
  current_forces : O -> pyobj
}.
#[global] Existing Instance fibers_model.
End Model.

(** ** class Muscle *)

Module Muscle.
Section Orchestrator.
Context {Pool Fibers : Type} `{Numpy.t} `{Model.t Pool} `{Model.fibers Fibers}.

Record t : Type := { _pool : Pool; _fibers : Fibers }.

Definition __init__ (motor_neuron_pool_model : Pool) (muscle_fibers_model : Fibers)
  : result t :=
  if Model.motor_unit_count motor_neuron_pool_model
     =? Model.motor_unit_count muscle_fibers_model
  then Ok {| _pool := motor_neuron_pool_model; _fibers := muscle_fibers_model |}
  else Raise AssertionError.

Definition motor_unit_count : method t Z :=
  attr (fun self => Model.motor_unit_count (_pool self)).

Definition current_forces : method t pyobj :=
  attr (fun self => Model.current_forces (_fibers self)).

(** [self._pool.step(...)] and [self._fibers.step(...)]: the call advances
    the collaborator the muscle holds, also when it raises. *)
Definition _pool_step (args : list pyobj) : method t pyobj :=
  fun self =>
    let (pool', r) := Model.step (_pool self) args in
    ({| _pool := pool'; _fibers := _fibers self |}, r).

Definition _fibers_step (args : list pyobj) : method t pyobj :=
  fun self =>
    let (fibers', r) := Model.step (_fibers self) args in
    ({| _pool := _pool self; _fibers := fibers' |}, r).

Definition step (motor_pool_input step_size : pyobj) : method t pyobj :=
  (motor_pool_input <-
     (if isinstance_float motor_pool_input || isinstance_int motor_pool_input
      then (n <- attr (fun self => Model.motor_unit_count (_pool self)) ;;
            lift (np_full n motor_pool_input))
      else ret motor_pool_input) ;;
   motor_pool_output <- _pool_step [motor_pool_input; step_size] ;;
   _fibers_step [motor_pool_output])%method.

(** A run of [step] calls, one after the other on the same muscle,
    whatever each returns or raises. *)
Fixpoint steps (calls : list (pyobj * pyobj)) (self : t) : t :=
  match calls with
  | [] => self
  | (motor_pool_input, step_size) :: rest =>
      steps rest (fst (step motor_pool_input step_size self))
  end.
End Orchestrator.
Arguments t : clear implicits.
End Muscle.

(** ** The preset subclasses *)

(** An argument with a default value: [None] when the caller leaves it out. *)
Definition or_default {A : Type} (given : option A) (default : A) : A :=
  match given with
  | Some a => a
  | None => default
  end.

(** The model classes the presets instantiate are other modules of the
    package; their constructors are taken as given, each with the arguments
    in the order of the call and free to raise. *)
Module PotvinFuglevandMuscle.
Section Preset.
Context {Pool Fibers : Type} `{Model.t Pool} `{Model.fibers Fibers}.
(** [PotvinFuglevand2017MotorNeuronPool(motor_unit_count, apply_fatigue=,
    pre_calc_firing_rates=)] *)
Variable PotvinFuglevand2017MotorNeuronPool : Z -> bool -> bool -> result Pool.
(** [PotvinFuglevand2017MuscleFibers(motor_unit_count, apply_fatigue=)] *)
Variable PotvinFuglevand2017MuscleFibers : Z -> bool -> result Fibers.

Definition __init__ (motor_unit_count : Z)
    (apply_central_fatigue apply_peripheral_fatigue pre_calc_firing_rates : option bool)
  : result (Muscle.t Pool Fibers) :=
  let apply_central_fatigue := or_default apply_central_fatigue true in
  let apply_peripheral_fatigue := or_default apply_peripheral_fatigue true in
  let pre_calc_firing_rates := or_default pre_calc_firing_rates false in
  let* pool := PotvinFuglevand2017MotorNeuronPool
                 motor_unit_count apply_central_fatigue pre_calc_firing_rates in
  let* fibers := PotvinFuglevand2017MuscleFibers
                   motor_unit_count apply_peripheral_fatigue in
  Muscle.__init__ pool fibers.
End Preset.
End PotvinFuglevandMuscle.

Module StandardMuscle.
(** [int(max_force / (force_conversion_factor * 17.66))] *)
Definition derive_motor_unit_count (max_force force_conversion_factor : float)
  : result Z :=
  let* quotient := float_truediv max_force (force_conversion_factor * 17.66)%float in
  py_int quotient.

Section Preset.
Context {Pool Fibers : Type} `{Model.t Pool} `{Model.fibers Fibers}.
(** [PotvinFuglevand2017MotorNeuronPool(motor_unit_count, apply_fatigue=,
    pre_calc_firing_rates=)] *)
Variable PotvinFuglevand2017MotorNeuronPool : Z -> bool -> bool -> result Pool.
(** [PyMuscleFibers(motor_unit_count, force_conversion_factor=,
    apply_fatigue=)] *)
Variable PyMuscleFibers : Z -> float -> bool -> result Fibers.

(** The instance: the two attributes the subclass sets and the state of
    the base class. *)
Record t : Type := {
  max_force : float;
  force_conversion_factor : float;
  base : Muscle.t Pool Fibers
}.

Definition __init__ (max_force force_conversion_factor : option float)
    (apply_central_fatigue apply_peripheral_fatigue pre_calc_firing_rates : option bool)
  : result t :=
  let max_force := or_default max_force 60.0%float in
  let force_conversion_factor := or_default force_conversion_factor 0.028%float in
  let apply_central_fatigue := or_default apply_central_fatigue false in
  let apply_peripheral_fatigue := or_default apply_peripheral_fatigue true in
  let pre_calc_firing_rates := or_default pre_calc_firing_rates false in
  let* motor_unit_count := derive_motor_unit_count max_force force_conversion_factor in
  let* pool := PotvinFuglevand2017MotorNeuronPool
                 motor_unit_count apply_central_fatigue pre_calc_firing_rates in
  let* fibers := PyMuscleFibers
                   motor_unit_count force_conversion_factor apply_peripheral_fatigue in
  let* muscle := Muscle.__init__ pool fibers in
  Ok {| max_force := max_force;
        force_conversion_factor := force_conversion_factor;
        base := muscle |}.

(** The read accessor the subclass inherits. *)
Definition motor_unit_count (self : t) : Z :=
  Model.motor_unit_count (Muscle._pool (base self)).
End Preset.
Arguments t : clear implicits.
End StandardMuscle.

(** ** Stand-in models *)

(** Small model objects to run the orchestrator on.  Each keeps the list of
    argument lists its [step] was called with, so that a run shows what the
    muscle passed to it. *)
Module Stub.
(** A machine that has a gibibyte for numpy. *)
#[global] Instance numpy : Numpy.t :=
  {| Numpy.can_allocate := fun bytes => bytes <=? 2 ^ 30 |}.

Definition scalar_to_float (v : scalar) : float :=
  match v with
  | PyFloat x => x
  | PyInt n =>
      if n <? 0 then (- PrimFloat.of_uint63 (Uint63.of_Z (- n)))%float
      else PrimFloat.of_uint63 (Uint63.of_Z n)
  | PyBool b => if b then 1%float else 0%float
  end.

(** A pool: the firing rate of a unit is half its excitation; an input of
    the wrong length is refused. *)
Record pool : Type := {
  pool_count : Z;
  pool_apply_fatigue : bool;
  pool_pre_calc_firing_rates : bool;
  pool_calls : list (list pyobj)
}.

Definition pool_called (o : pool) (args : list pyobj) : pool :=
  {| pool_count := pool_count o;
     pool_apply_fatigue := pool_apply_fatigue o;
     pool_pre_calc_firing_rates := pool_pre_calc_firing_rates o;
     pool_calls := pool_calls o ++ [args] |}.

Definition pool_step (o : pool) (args : list pyobj) : pool * result pyobj :=
  (pool_called o args,
   match args with
   | [NdArray xs; _] =>
       if Z.of_nat (List.length xs) =? pool_count o
       then Ok (NdArray (map (fun v => PyFloat (scalar_to_float v * 0.5)%float) xs))
       else Raise ValueError
   | _ => Raise TypeError
   end).

#[global] Instance pool_model : Model.t pool :=
  {| Model.motor_unit_count := pool_count; Model.step := pool_step |}.

Definition new_pool (motor_unit_count : Z) (apply_fatigue pre_calc_firing_rates : bool)
  : result pool :=
  Ok {| pool_count := motor_unit_count;
        pool_apply_fatigue := apply_fatigue;
        pool_pre_calc_firing_rates := pre_calc_firing_rates;
        pool_calls := [] |}.

(** Fibers whose [step] takes the firing rates alone: the force is their
    sum, kept in [current_forces]. *)
Record fibers : Type := {
  fibers_count : Z;
  fibers_force_conversion_factor : float;
  fibers_apply_fatigue : bool;
  fibers_calls : list (list pyobj);
  fibers_current_forces : pyobj
}.

Definition fibers_called (o : fibers) (args : list pyobj) (forces : pyobj) : fibers :=
  {| fibers_count := fibers_count o;
     fibers_force_conversion_factor := fibers_force_conversion_factor o;
     fibers_apply_fatigue := fibers_apply_fatigue o;
     fibers_calls := fibers_calls o ++ [args];
     fibers_current_forces := forces |}.

Definition total_force (xs : list scalar) : pyobj :=
  Scalar (PyFloat (fold_left (fun acc v => (acc + scalar_to_float v)%float) xs 0%float)).

Definition fibers_step (o : fibers) (args : list pyobj) : fibers * result pyobj :=
  match args with
  | [NdArray xs] =>
      (fibers_called o args (total_force xs), Ok (total_force xs))
  | _ => (fibers_called o args (fibers_current_forces o), Raise TypeError)
  end.

#[global] Instance fibers_model : Model.fibers fibers :=
  {| Model.fibers_model :=
       {| Model.motor_unit_count := fibers_count; Model.step := fibers_step |};
     Model.current_forces := fibers_current_forces |}.

Definition new_fibers (motor_unit_count : Z) (force_conversion_factor : float)
    (apply_fatigue : bool) : result fibers :=
  Ok {| fibers_count := motor_unit_count;
        fibers_force_conversion_factor := force_conversion_factor;
        fibers_apply_fatigue := apply_fatigue;
        fibers_calls := [];
        fibers_current_forces := Scalar (PyFloat 0) |}.

(** Fibers whose [step] takes the firing rates and the step size, as the
    pool's does, and refuses any other argument list as Python refuses a
    call with a missing positional argument. *)
Record timed_fibers : Type := { timed : fibers }.

Definition timed_fibers_step (o : timed_fibers) (args : list pyobj)
  : timed_fibers * result pyobj :=
  match args with
  | [NdArray xs; _] =>
      ({| timed := fibers_called (timed o) args (total_force xs) |}, Ok (total_force xs))
  | _ =>
      ({| timed := fibers_called (timed o) args (fibers_current_forces (timed o)) |},
       Raise TypeError)
  end.

#[global] Instance timed_fibers_model : Model.fibers timed_fibers :=
  {| Model.fibers_model :=
       {| Model.motor_unit_count := fun o => fibers_count (timed o);
          Model.step := timed_fibers_step |};
     Model.current_forces := fun o => fibers_current_forces (timed o) |}.

(** A pool that does not keep its count: every step adds a unit. *)
Record growing_pool : Type := { grown : Z }.

#[global] Instance growing_pool_model : Model.t growing_pool :=
  {| Model.motor_unit_count := grown;
     Model.step := fun o args =>
       ({| grown := grown o + 1 |},
        match args with
        | motor_pool_input :: _ => Ok motor_pool_input
        | [] => Raise TypeError
        end) |}.

(** Three motor units, nothing stepped yet. *)
Definition pool3 : pool :=
  {| pool_count := 3; pool_apply_fatigue := true;
     pool_pre_calc_firing_rates := false; pool_calls := [] |}.

Definition fibers3 : fibers :=
  {| fibers_count := 3; fibers_force_conversion_factor := 0.028%float;
     fibers_apply_fatigue := true; fibers_calls := [];
     fibers_current_forces := Scalar (PyFloat 0) |}.

Definition muscle3 : Muscle.t pool fibers :=
  {| Muscle._pool := pool3; Muscle._fibers := fibers3 |}.

(** The same pool with fibers that want the step size too. *)
Definition timed_muscle3 : Muscle.t pool timed_fibers :=
  {| Muscle._pool := pool3; Muscle._fibers := {| timed := fibers3 |} |}.

(** Fibers of five units, and models of no unit at all. *)
Definition fibers5 : fibers :=
  {| fibers_count := 5; fibers_force_conversion_factor := 0.028%float;
     fibers_apply_fatigue := true; fibers_calls := [];
     fibers_current_forces := Scalar (PyFloat 0) |}.

Definition pool0 : pool :=
  {| pool_count := 0; pool_apply_fatigue := true;
     pool_pre_calc_firing_rates := false; pool_calls := [] |}.

Definition fibers0 : fibers :=
  {| fibers_count := 0; fibers_force_conversion_factor := 0.028%float;
     fibers_apply_fatigue := true; fibers_calls := [];
     fibers_current_forces := Scalar (PyFloat 0) |}.

Definition muscle0 : Muscle.t pool fibers :=
  {| Muscle._pool := pool0; Muscle._fibers := fibers0 |}.

(** Fibers whose [step] returns the total force and keeps the forces of
    the single units in [current_forces]. *)
Record per_unit_fibers : Type := { per_unit : fibers }.

Definition per_unit_fibers_step (o : per_unit_fibers) (args : list pyobj)
  : per_unit_fibers * result pyobj :=
  match args with
  | [NdArray xs] =>
      ({| per_unit := fibers_called (per_unit o) args (NdArray xs) |},
       Ok (total_force xs))
  | _ =>
      ({| per_unit := fibers_called (per_unit o) args
                        (fibers_current_forces (per_unit o)) |},
       Raise TypeError)
  end.

#[global] Instance per_unit_fibers_model : Model.fibers per_unit_fibers :=
  {| Model.fibers_model :=
       {| Model.motor_unit_count := fun o => fibers_count (per_unit o);
          Model.step := per_unit_fibers_step |};
     Model.current_forces := fun o => fibers_current_forces (per_unit o) |}.

Definition per_unit_muscle3 : Muscle.t pool per_unit_fibers :=
  {| Muscle._pool := pool3; Muscle._fibers := {| per_unit := fibers3 |} |}.

(** Models of 2^64 units, one more than the largest count a 64-bit
    unsigned integer holds. *)
Definition huge_pool : pool :=
  {| pool_count := 2 ^ 64; pool_apply_fatigue := true;
     pool_pre_calc_firing_rates := false; pool_calls := [] |}.

Definition huge_fibers : fibers :=
  {| fibers_count := 2 ^ 64; fibers_force_conversion_factor := 0.028%float;
     fibers_apply_fatigue := true; fibers_calls := [];
     fibers_current_forces := Scalar (PyFloat 0) |}.

Definition huge_muscle : Muscle.t pool fibers :=
  {| Muscle._pool := huge_pool; Muscle._fibers := huge_fibers |}.
End Stub.


(** ** The step of section 4.1, as the specification words it *)

(** Input normalisation: a scalar becomes a uniform vector of
    [motor_unit_count] entries, anything else passes unchanged. *)
Definition broadcast (motor_unit_count : Z) (motor_pool_input : pyobj) : pyobj :=
  match motor_pool_input with
  | Scalar v => NdArray (repeat v (Z.to_nat motor_unit_count))
  | _ => motor_pool_input
  end.

(** Sequencing: the pool's step on the input and the step size gives the
    activation; the fibers' step on that activation gives the force, which
    is returned.  A failure of either call is the failure of the whole. *)
Definition pool_then_fibers {Pool Fibers : Type} `{Model.t Pool} `{Model.fibers Fibers}
    (self : Muscle.t Pool Fibers) (per_unit_input step_size : pyobj)
  : Muscle.t Pool Fibers * result pyobj :=
  let (pool', activation) := Model.step (Muscle._pool self) [per_unit_input; step_size] in
  match activation with
  | Raise e => ({| Muscle._pool := pool'; Muscle._fibers := Muscle._fibers self |}, Raise e)
  | Ok activation =>
      let (fibers', force) := Model.step (Muscle._fibers self) [activation] in
      ({| Muscle._pool := pool'; Muscle._fibers := fibers' |}, force)
  end.

(** ** Numbers the float properties are stated with *)

(** The floats 17.66 and 1.0 as sign, mantissa and exponent. *)
Definition seventeen_66 : spec_float := S754_finite false 4970848088710185 (-48).

Definition SF_one : spec_float := S754_finite false 4503599627370496 (-52).

(** Dropping the fraction of a rational number: the floor of what is not
    negative, the ceiling of what is. *)
Definition Qtruncate (r : Q) : Z :=
  if Qle_bool 0 r then Qfloor r else Qceiling r.

(** The count with the sign changed, an exception as it is. *)
Definition negated (count : result Z) : result Z :=
  match count with
  | Ok n => Ok (- n)
  | Raise e => Raise e
  end.

(** * Properties *)

Section MuscleFacts.
Context {Pool Fibers : Type} `{Numpy.t} `{Model.t Pool} `{Model.fibers Fibers}.
Implicit Types (self : Muscle.t Pool Fibers) (pool : Pool) (fibers : Fibers).

(** When numpy builds the vector it is the copies asked for, and the count
    was within its limits. *)
Lemma np_full_ok_inv (n : Z) (v : scalar) (x : pyobj) :
  np_full n (Scalar v) = Ok x ->
  x = NdArray (repeat v (Z.to_nat n))
  /\ 0 <= n
  /\ n * Numpy.itemsize v <= Numpy.NPY_MAX_INTP
  /\ Numpy.can_allocate (n * Numpy.itemsize v) = true.
Proof.
  unfold np_full.
  destruct (Z.ltb_spec n 0) as [Hneg|Hn]; [intros Hd; discriminate Hd|].
  destruct (Z.ltb_spec Numpy.NPY_MAX_INTP (n * Numpy.itemsize v)) as [Hbig|Hfit];
    [intros Hd; discriminate Hd|].
  destruct (Numpy.can_allocate (n * Numpy.itemsize v)) eqn:Hmem;
    [|intros Hd; discriminate Hd].
  intros [= <-]. repeat split; assumption.
Qed.

Lemma np_full_within_limits (n : Z) (v : scalar) :
  0 <= n -> n * Numpy.itemsize v <= Numpy.NPY_MAX_INTP ->
  Numpy.can_allocate (n * Numpy.itemsize v) = true ->
  np_full n (Scalar v) = Ok (NdArray (repeat v (Z.to_nat n))).
Proof.
  intros Hn Hfit Hmem. unfold np_full.
  destruct (Z.ltb_spec n 0) as [Hneg|_]; [lia|].
  destruct (Z.ltb_spec Numpy.NPY_MAX_INTP (n * Numpy.itemsize v)) as [Hbig|_]; [lia|].
  now rewrite Hmem.
Qed.

(** numpy raises nothing but a [ValueError] and a [MemoryError]. *)
Lemma np_full_raise_inv (n : Z) (v : scalar) (e : exn) :
  np_full n (Scalar v) = Raise e -> e = ValueError \/ e = MemoryError.
Proof.
  unfold np_full.
  destruct (n <? 0); [intros [= <-]; now left|].
  destruct (Numpy.NPY_MAX_INTP <? n * Numpy.itemsize v); [intros [= <-]; now left|].
  destruct (Numpy.can_allocate (n * Numpy.itemsize v)); intros Hd;
    [discriminate Hd|]. injection Hd as <-. now right.
Qed.

Lemma np_full_negative (n : Z) (v : scalar) :
  n < 0 -> np_full n (Scalar v) = Raise ValueError.
Proof.
  intros Hn. unfold np_full. destruct (Z.ltb_spec n 0) as [_|Hge]; [reflexivity|lia].
Qed.

Lemma expand_scalar (n : Z) (v : scalar) : expand n (Scalar v) = np_full n (Scalar v).
Proof. destruct v; reflexivity. Qed.

Lemma expand_per_unit (n : Z) (input : pyobj) :
  isinstance_float input || isinstance_int input = false ->
  expand n input = Ok input.
Proof. intros Hnot. unfold expand. now rewrite Hnot. Qed.

(** What the pool is handed is the input as section 4.1 normalises it. *)
Lemma expand_ok_broadcast (n : Z) (input x : pyobj) :
  expand n input = Ok x -> x = broadcast n input.
Proof.
  destruct input as [v|xs|xs|]; cbn [broadcast].
  - rewrite expand_scalar. intros Hx. now destruct (np_full_ok_inv _ _ _ Hx).
  - rewrite expand_per_unit by reflexivity. now intros [= <-].
  - rewrite expand_per_unit by reflexivity. now intros [= <-].
  - rewrite expand_per_unit by reflexivity. now intros [= <-].
Qed.

Lemma expand_raise_inv (n : Z) (input : pyobj) (e : exn) :
  expand n input = Raise e ->
  (exists v, input = Scalar v) /\ (e = ValueError \/ e = MemoryError).
Proof.
  destruct input as [v|xs|xs|].
  - rewrite expand_scalar. intros He. split; [now exists v|].
    now apply (np_full_raise_inv n v).
  - rewrite expand_per_unit by reflexivity. intros Hd. discriminate Hd.
  - rewrite expand_per_unit by reflexivity. intros Hd. discriminate Hd.
  - rewrite expand_per_unit by reflexivity. intros Hd. discriminate Hd.
Qed.

(** A step is the expansion of the input and then the two model steps; an
    exception of the expansion ends it with no model stepped. *)
Lemma step_expand self input step_size :
  Muscle.step input step_size self
  = match expand (Model.motor_unit_count (Muscle._pool self)) input with
    | Ok expanded => pool_then_fibers self expanded step_size
    | Raise e => (self, Raise e)
    end.
Proof.
  unfold Muscle.step, expand, bind.
  destruct (isinstance_float input || isinstance_int input).
  - unfold attr, lift.
    destruct (np_full (Model.motor_unit_count (Muscle._pool self)) input) as [x|e];
      [|reflexivity].
    unfold Muscle._pool_step, Muscle._fibers_step, pool_then_fibers.
    destruct (Model.step (Muscle._pool self) [x; step_size]) as [pool' [a|e]];
      reflexivity.
  - unfold ret, Muscle._pool_step, Muscle._fibers_step, pool_then_fibers.
    destruct (Model.step (Muscle._pool self) [input; step_size]) as [pool' [a|e]];
      reflexivity.
Qed.

(** What is no float and no int reaches the pool as it is. *)
Lemma step_per_unit self input step_size :
  isinstance_float input || isinstance_int input = false ->
  Muscle.step input step_size self = pool_then_fibers self input step_size.
Proof.
  intros Hnot. rewrite step_expand. now rewrite expand_per_unit.
Qed.

(** With a negative count numpy refuses to build the vector and no model
    is stepped. *)
Lemma step_scalar_negative_count self v step_size :
  Model.motor_unit_count (Muscle._pool self) < 0 ->
  Muscle.step (Scalar v) step_size self = (self, Raise ValueError).
Proof.
  intros Hn. rewrite step_expand, expand_scalar. now rewrite np_full_negative.
Qed.

Lemma pool_then_fibers_ok_inv self input step_size self' force :
  pool_then_fibers self input step_size = (self', Ok force) ->
  exists pool' activation fibers',
    Model.step (Muscle._pool self) [input; step_size] = (pool', Ok activation)
    /\ Model.step (Muscle._fibers self) [activation] = (fibers', Ok force)
    /\ self' = {| Muscle._pool := pool'; Muscle._fibers := fibers' |}.
Proof.
  unfold pool_then_fibers.
  destruct (Model.step (Muscle._pool self) [input; step_size]) as [pool' [a|e]];
    [|discriminate].
  destruct (Model.step (Muscle._fibers self) [a]) as [fibers' r] eqn:Hf.
  intros [= <- ->]. now exists pool', a, fibers'.
Qed.

(** A step that returns has stepped both models, and both returned. *)
Lemma step_ok_inv self input step_size self' force :
  Muscle.step input step_size self = (self', Ok force) ->
  exists input' pool' activation fibers',
    Model.step (Muscle._pool self) [input'; step_size] = (pool', Ok activation)
    /\ Model.step (Muscle._fibers self) [activation] = (fibers', Ok force)
    /\ self' = {| Muscle._pool := pool'; Muscle._fibers := fibers' |}.
Proof.
  rewrite step_expand.
  destruct (expand (Model.motor_unit_count (Muscle._pool self)) input) as [x|e];
    intros Hstep; [|discriminate Hstep].
  exists x. apply pool_then_fibers_ok_inv. exact Hstep.
Qed.

Lemma pool_then_fibers_unfold self input step_size :
  let (pool', activation) := Model.step (Muscle._pool self) [input; step_size] in
  match activation with
  | Ok activation =>
      let (fibers', force) := Model.step (Muscle._fibers self) [activation] in
      pool_then_fibers self input step_size
      = ({| Muscle._pool := pool'; Muscle._fibers := fibers' |}, force)
  | Raise e =>
      pool_then_fibers self input step_size
      = ({| Muscle._pool := pool'; Muscle._fibers := Muscle._fibers self |}, Raise e)
  end.
Proof.
  unfold pool_then_fibers.
  destruct (Model.step (Muscle._pool self) [input; step_size]) as [pool' [a|e]].
  - destruct (Model.step (Muscle._fibers self) [a]) as [fibers' force]. reflexivity.
  - reflexivity.
Qed.

Lemma init_ok_iff pool fibers :
  Muscle.__init__ pool fibers
    = Ok {| Muscle._pool := pool; Muscle._fibers := fibers |}
  <-> Model.motor_unit_count pool = Model.motor_unit_count fibers.
Proof.
  unfold Muscle.__init__.
  destruct (Z.eqb_spec (Model.motor_unit_count pool) (Model.motor_unit_count fibers));
    split; intros; congruence.
Qed.

Lemma init_inv pool fibers self :
  Muscle.__init__ pool fibers = Ok self ->
  self = {| Muscle._pool := pool; Muscle._fibers := fibers |}
  /\ Model.motor_unit_count pool = Model.motor_unit_count fibers.
Proof.
  unfold Muscle.__init__.
  destruct (Z.eqb_spec (Model.motor_unit_count pool) (Model.motor_unit_count fibers));
    intros [= <-]. now split.
Qed.

(** C1. Constructing a Muscle raises AssertionError, the specification's
    ConfigurationError, exactly when the pool's motor unit count differs
    from the fibers', and otherwise yields the muscle holding the two
    objects.  Nothing checks again afterwards: a muscle holding any two
    objects, of equal counts or not, answers its accessors from them, and
    its step is the expansion of the input followed by the two model steps,
    with no comparison of the counts; the expansion itself raises no
    AssertionError. *)
Theorem Muscle_init_checks_counts_once pool fibers :
  let self := {| Muscle._pool := pool; Muscle._fibers := fibers |} in
  (Muscle.__init__ pool fibers = Raise AssertionError
   <-> Model.motor_unit_count pool <> Model.motor_unit_count fibers)
  /\ (Muscle.__init__ pool fibers = Ok self
      <-> Model.motor_unit_count pool = Model.motor_unit_count fibers)
  /\ Muscle.motor_unit_count self = (self, Ok (Model.motor_unit_count pool))
  /\ Muscle.current_forces self = (self, Ok (Model.current_forces fibers))
  /\ (forall input step_size,
        Muscle.step input step_size self
        = match expand (Model.motor_unit_count pool) input with
          | Ok expanded => pool_then_fibers self expanded step_size
          | Raise e => (self, Raise e)
          end)
  /\ (forall input e,
        expand (Model.motor_unit_count pool) input = Raise e -> e <> AssertionError).
Proof.
  intros self. repeat split.
  - unfold Muscle.__init__.
    destruct (Z.eqb_spec (Model.motor_unit_count pool) (Model.motor_unit_count fibers));
      congruence.
  - unfold Muscle.__init__.
    destruct (Z.eqb_spec (Model.motor_unit_count pool) (Model.motor_unit_count fibers));
      congruence.
  - apply init_ok_iff.
  - apply init_ok_iff.
  - intros input step_size. apply (step_expand self).
  - intros input e He.
    destruct (expand_raise_inv _ _ _ He) as [_ [-> | ->]]; intros Hd; discriminate Hd.
Qed.

(** C3, as the code has it.  A step first expands the input.  When that
    succeeds, the pool's step is called with the input, a scalar replaced
    by the vector of [motor_unit_count] copies, and the step size; when the
    pool returns an activation, the fibers' step is called with that
    activation, and what it returns is what the muscle's step returns.
    When numpy refuses to build the vector for a scalar, the step raises
    numpy's [ValueError] or [MemoryError] and no model is stepped. *)
Theorem step_calls_pool_then_fibers self input step_size :
  let n := Model.motor_unit_count (Muscle._pool self) in
  match expand n input with
  | Ok expanded =>
      expanded = broadcast n input
      /\ let (pool', activation) :=
           Model.step (Muscle._pool self) [expanded; step_size] in
         match activation with
         | Ok activation =>
             let (fibers', force) := Model.step (Muscle._fibers self) [activation] in
             Muscle.step input step_size self
             = ({| Muscle._pool := pool'; Muscle._fibers := fibers' |}, force)
         | Raise e =>
             Muscle.step input step_size self
             = ({| Muscle._pool := pool'; Muscle._fibers := Muscle._fibers self |},
                Raise e)
         end
  | Raise e =>
      (exists v, input = Scalar v)
      /\ (e = ValueError \/ e = MemoryError)
      /\ Muscle.step input step_size self = (self, Raise e)
  end.
Proof.
  intros n. rewrite step_expand. fold n.
  destruct (expand n input) as [expanded|e] eqn:Hexp.
  - split; [now apply expand_ok_broadcast|].
    apply pool_then_fibers_unfold.
  - destruct (expand_raise_inv _ _ _ Hexp) as [Hv He]. now repeat split.
Qed.


(** C8. Once the input is expanded, an exception raised by the pool's
    step, or by the fibers' step, is the exception of the muscle's step,
    and a pool that raised leaves the fibers unstepped.  An array is handed
    to the pool as it is, whatever its length and whatever the count. *)
Theorem step_propagates_model_failures self input step_size expanded :
  expand (Model.motor_unit_count (Muscle._pool self)) input = Ok expanded ->
  (forall pool' e,
      Model.step (Muscle._pool self) [expanded; step_size] = (pool', Raise e) ->
      Muscle.step input step_size self
      = ({| Muscle._pool := pool'; Muscle._fibers := Muscle._fibers self |}, Raise e))
  /\ (forall pool' activation fibers' e,
      Model.step (Muscle._pool self) [expanded; step_size] = (pool', Ok activation) ->
      Model.step (Muscle._fibers self) [activation] = (fibers', Raise e) ->
      Muscle.step input step_size self
      = ({| Muscle._pool := pool'; Muscle._fibers := fibers' |}, Raise e))
  /\ (forall xs, input = NdArray xs -> expanded = NdArray xs)
  /\ (forall xs size,
        Muscle.step (NdArray xs) size self = pool_then_fibers self (NdArray xs) size).
Proof.
  intros Hexp. rewrite step_expand, Hexp. unfold pool_then_fibers. repeat split.
  - intros pool' e ->. reflexivity.
  - intros pool' a fibers' e -> ->. reflexivity.
  - intros xs ->. rewrite expand_per_unit in Hexp by reflexivity.
    now injection Hexp as <-.
  - intros xs size. now apply step_per_unit.
Qed.

(** C7, as the code has it.  The accessor reads the fibers'
    [current_forces] and leaves the muscle as it is.  After a step that
    returned, that is what the fibers hold after their own step of that
    call, and it is the force the step returned exactly when the fibers
    keep in [current_forces] what their step returns. *)
Theorem current_forces_after_step self input step_size self' force :
  Muscle.step input step_size self = (self', Ok force) ->
  Muscle.current_forces self'
    = (self', Ok (Model.current_forces (Muscle._fibers self')))
  /\ (exists activation,
        Model.step (Muscle._fibers self) [activation]
        = (Muscle._fibers self', Ok force))
  /\ (Muscle.current_forces self' = (self', Ok force)
      <-> Model.current_forces (Muscle._fibers self') = force).
Proof.
  intros Hstep.
  destruct (step_ok_inv _ _ _ _ _ Hstep) as (input' & pool' & a & fibers' & _ & Hf & ->).
  unfold Muscle.current_forces, attr. cbn [Muscle._fibers].
  split; [reflexivity|]. split; [now exists a|].
  split; [intros [= ->]; reflexivity | intros ->; reflexivity].
Qed.

(** A step changes nothing of the muscle but the two models, each through
    its own [step]. *)
Lemma step_keeps_counts self input step_size :
  (forall (o : Pool) args,
      Model.motor_unit_count (fst (Model.step o args)) = Model.motor_unit_count o) ->
  (forall (o : Fibers) args,
      Model.motor_unit_count (fst (Model.step o args)) = Model.motor_unit_count o) ->
  let self' := fst (Muscle.step input step_size self) in
  Model.motor_unit_count (Muscle._pool self')
    = Model.motor_unit_count (Muscle._pool self)
  /\ Model.motor_unit_count (Muscle._fibers self')
    = Model.motor_unit_count (Muscle._fibers self).
Proof.
  intros Hpool Hfibers.
  assert (Hseq : forall per_unit,
    let self' := fst (pool_then_fibers self per_unit step_size) in
    Model.motor_unit_count (Muscle._pool self')
      = Model.motor_unit_count (Muscle._pool self)
    /\ Model.motor_unit_count (Muscle._fibers self')
      = Model.motor_unit_count (Muscle._fibers self)).
  { intros per_unit. unfold pool_then_fibers.
    pose proof (Hpool (Muscle._pool self) [per_unit; step_size]) as Hp.
    destruct (Model.step (Muscle._pool self) [per_unit; step_size]) as [pool' [a|e]];
      cbn in Hp |- *.
    - pose proof (Hfibers (Muscle._fibers self) [a]) as Hf.
      destruct (Model.step (Muscle._fibers self) [a]) as [fibers' r].
      cbn in Hf |- *. now split.
    - now split. }
  rewrite step_expand.
  destruct (expand (Model.motor_unit_count (Muscle._pool self)) input) as [x|e].
  - apply Hseq.
  - now split.
Qed.

(** C6, as the code has it.  The count of a constructed muscle is the
    integer the pool reports, of any sign.  With models that keep their own
    counts, it is the same after any run of steps, whether they returned or
    raised: the accessor still answers the count the pool had at
    construction, which is still the fibers' count, and reading it leaves
    the muscle as it was. *)
Theorem motor_unit_count_fixed pool fibers self calls :
  (forall (o : Pool) args,
      Model.motor_unit_count (fst (Model.step o args)) = Model.motor_unit_count o) ->
  (forall (o : Fibers) args,
      Model.motor_unit_count (fst (Model.step o args)) = Model.motor_unit_count o) ->
  Muscle.__init__ pool fibers = Ok self ->
  let self' := Muscle.steps calls self in
  Muscle.motor_unit_count self' = (self', Ok (Model.motor_unit_count pool))
  /\ Model.motor_unit_count (Muscle._fibers self') = Model.motor_unit_count pool.
Proof.
  intros Hpool Hfibers Hinit.
  destruct (init_inv _ _ _ Hinit) as [-> Heq].
  assert (Hinv : forall calls s,
    Model.motor_unit_count (Muscle._pool s) = Model.motor_unit_count pool ->
    Model.motor_unit_count (Muscle._fibers s) = Model.motor_unit_count pool ->
    Model.motor_unit_count (Muscle._pool (Muscle.steps calls s))
      = Model.motor_unit_count pool
    /\ Model.motor_unit_count (Muscle._fibers (Muscle.steps calls s))
      = Model.motor_unit_count pool).
  { clear calls. induction calls as [|[input step_size] rest IH]; intros s Hp Hf.
    - now split.
    - cbn [Muscle.steps].
      destruct (step_keeps_counts s input step_size Hpool Hfibers) as [Hp' Hf'].
      apply IH; congruence. }
  destruct (Hinv calls {| Muscle._pool := pool; Muscle._fibers := fibers |})
    as [Hp Hf]; [reflexivity | now symmetry |].
  cbn zeta. split.
  - unfold Muscle.motor_unit_count, attr. now rewrite Hp.
  - exact Hf.
Qed.
End MuscleFacts.

(** ** The orchestrator on the stand-in models *)

Lemma stub_pool_keeps_count (o : Stub.pool) (args : list pyobj) :
  Model.motor_unit_count (fst (Model.step o args)) = Model.motor_unit_count o.
Proof. reflexivity. Qed.

Lemma stub_fibers_keep_count (o : Stub.fibers) (args : list pyobj) :
  Model.motor_unit_count (fst (Model.step o args)) = Model.motor_unit_count o.
Proof.
  cbn. unfold Stub.fibers_step.
  destruct args as [|[v|xs|xs|] [|? ?]]; reflexivity.
Qed.

Lemma stub_fibers_cache (o o' : Stub.fibers) (args : list pyobj) (f : pyobj) :
  Model.step o args = (o', Ok f) -> Model.current_forces o' = f.
Proof.
  cbn. unfold Stub.fibers_step.
  destruct args as [|[v|xs|xs|] [|? ?]]; try discriminate.
  now intros [= <- <-].
Qed.

(** C2, where the code departs from it.  Stepping the three-unit muscle with
    excitation 32.0 and step size 0.02: the pool's step is called with the
    expanded input and the step size, the fibers' step with the pool's
    output and nothing else.  Fibers whose step takes the step size, as the
    pool's does, refuse that call, after the pool has been stepped. *)
Theorem step_size_reaches_pool_only :
  let excitation := Scalar (PyFloat 32.0) in
  let step_size := Scalar (PyFloat 0.02) in
  let self' := fst (Muscle.step excitation step_size Stub.muscle3) in
  let timed' := fst (Muscle.step excitation step_size Stub.timed_muscle3) in
  Stub.pool_calls (Muscle._pool self')
    = [[NdArray [PyFloat 32; PyFloat 32; PyFloat 32]; step_size]]
  /\ Stub.fibers_calls (Muscle._fibers self')
    = [[NdArray [PyFloat 16; PyFloat 16; PyFloat 16]]]
  /\ snd (Muscle.step excitation step_size Stub.muscle3) = Ok (Scalar (PyFloat 48))
  /\ Stub.pool_calls (Muscle._pool timed')
    = [[NdArray [PyFloat 32; PyFloat 32; PyFloat 32]; step_size]]
  /\ Stub.fibers_calls (Stub.timed (Muscle._fibers timed'))
    = [[NdArray [PyFloat 16; PyFloat 16; PyFloat 16]]]
  /\ snd (Muscle.step excitation step_size Stub.timed_muscle3) = Raise TypeError.
Proof. vm_compute. repeat split. Qed.

(** C1 on a pool of three units and fibers of five: the constructor refuses
    them, and a muscle that holds them nevertheless steps without a check. *)
Lemma Muscle_init_checks_counts_once_witness :
  Muscle.__init__ Stub.pool3 Stub.fibers5 = Raise AssertionError
  /\ Muscle.__init__ Stub.pool3 Stub.fibers3 = Ok Stub.muscle3
  /\ snd (Muscle.step (Scalar (PyFloat 32.0)) (Scalar (PyFloat 0.02))
            {| Muscle._pool := Stub.pool3; Muscle._fibers := Stub.fibers5 |})
     = Ok (Scalar (PyFloat 48)).
Proof.
  destruct (Muscle_init_checks_counts_once Stub.pool3 Stub.fibers5)
    as (Hfail & _ & _ & _ & Hstep & _).
  destruct (Muscle_init_checks_counts_once Stub.pool3 Stub.fibers3)
    as (_ & Hok & _).
  split; [|split].
  - apply Hfail. vm_compute. discriminate.
  - apply Hok. reflexivity.
  - rewrite Hstep. vm_compute. reflexivity.
Defined.

(** C3 as stated fails: with models of 2^64 units a scalar is not expanded,
    numpy's [ValueError] comes out of the step, and the pool's step has not
    been called. *)
Lemma step_without_pool_call :
  let excitation := Scalar (PyFloat 32.0) in
  let step_size := Scalar (PyFloat 0.02) in
  Muscle.step excitation step_size Stub.huge_muscle
    = (Stub.huge_muscle, Raise ValueError)
  /\ Stub.pool_calls
       (Muscle._pool (fst (Muscle.step excitation step_size Stub.huge_muscle))) = []
  /\ Muscle.__init__ Stub.huge_pool Stub.huge_fibers = Ok Stub.huge_muscle.
Proof. vm_compute. repeat split. Qed.

Lemma step_calls_pool_then_fibers_witness :
  snd (Muscle.step (Scalar (PyFloat 32.0)) (Scalar (PyFloat 0.02)) Stub.muscle3)
  = Ok (Scalar (PyFloat 48)).
Proof.
  pose proof (step_calls_pool_then_fibers Stub.muscle3
                (Scalar (PyFloat 32.0)) (Scalar (PyFloat 0.02))) as W.
  vm_compute in W. destruct W as [_ W]. exact (f_equal snd W).
Defined.


(** An array of one entry for three units: the pool gets it as it is and
    refuses it, and the muscle's step fails with the pool's exception. *)
Lemma step_propagates_model_failures_witness :
  Muscle.step (NdArray [PyFloat 32.0]) (Scalar (PyFloat 0.02)) Stub.muscle3
  = ({| Muscle._pool :=
          Stub.pool_called Stub.pool3 [NdArray [PyFloat 32.0]; Scalar (PyFloat 0.02)];
        Muscle._fibers := Stub.fibers3 |},
     Raise ValueError).
Proof.
  destruct (step_propagates_model_failures Stub.muscle3
              (NdArray [PyFloat 32.0]) (Scalar (PyFloat 0.02))
              (NdArray [PyFloat 32.0]) eq_refl) as (Hpool & _).
  apply Hpool. reflexivity.
Defined.

(** C7 as stated fails: fibers that return the total force and keep the
    forces of the units make the accessor differ from what the step
    returned. *)
Lemma current_forces_differ_from_returned_force :
  exists self',
    Muscle.step (Scalar (PyFloat 32.0)) (Scalar (PyFloat 0.02)) Stub.per_unit_muscle3
      = (self', Ok (Scalar (PyFloat 48)))
    /\ Muscle.current_forces self'
       = (self', Ok (NdArray [PyFloat 16; PyFloat 16; PyFloat 16]))
    /\ NdArray [PyFloat 16; PyFloat 16; PyFloat 16] <> Scalar (PyFloat 48).
Proof.
  eexists. split; [vm_compute; reflexivity|].
  split; [vm_compute; reflexivity|]. intros Hd. discriminate Hd.
Qed.

(** With fibers that keep what their step returns, the accessor gives the
    force of the step. *)
Lemma current_forces_after_step_witness :
  exists self',
    Muscle.step (Scalar (PyFloat 32.0)) (Scalar (PyFloat 0.02)) Stub.muscle3
      = (self', Ok (Scalar (PyFloat 48)))
    /\ Muscle.current_forces self' = (self', Ok (Scalar (PyFloat 48))).
Proof.
  eexists. split; [vm_compute; reflexivity|].
  match goal with
  | |- Muscle.current_forces ?s = _ =>
      assert (Hstep : Muscle.step (Scalar (PyFloat 32.0)) (Scalar (PyFloat 0.02))
                        Stub.muscle3 = (s, Ok (Scalar (PyFloat 48))))
        by (vm_compute; reflexivity);
      destruct (current_forces_after_step Stub.muscle3 _ _ s _ Hstep)
        as (_ & _ & Hforce)
  end.
  apply Hforce. reflexivity.
Defined.

(** C6 as stated fails: a muscle is constructed from models of no unit, and
    its count is zero. *)
Lemma motor_unit_count_can_be_zero :
  Muscle.__init__ Stub.pool0 Stub.fibers0 = Ok Stub.muscle0
  /\ Muscle.motor_unit_count Stub.muscle0 = (Stub.muscle0, Ok 0)
  /\ ~ 0 < 0.
Proof. repeat split. lia. Qed.

Lemma motor_unit_count_fixed_witness :
  let calls := [(Scalar (PyFloat 32.0), Scalar (PyFloat 0.02));
                (NdArray [PyFloat 1.0], Scalar (PyFloat 0.02));
                (Scalar (PyInt 7), Scalar (PyFloat 0.02))] in
  Muscle.motor_unit_count (Muscle.steps calls Stub.muscle3)
    = (Muscle.steps calls Stub.muscle3, Ok 3)
  /\ Model.motor_unit_count (Muscle._fibers (Muscle.steps calls Stub.muscle3)) = 3.
Proof.
  exact (motor_unit_count_fixed Stub.pool3 Stub.fibers3 Stub.muscle3 _
           stub_pool_keeps_count stub_fibers_keep_count eq_refl).
Defined.

(** ** Floats: signs, and int against floor *)

(** A float that is not negative: a NaN has no sign to speak of. *)
Definition not_negative (x : spec_float) : Prop :=
  match x with
  | S754_nan => True
  | S754_zero s | S754_infinity s | S754_finite s _ _ => s = false
  end.

Lemma binary_round_aux_sign (prec emax : Z) (sx : bool) (mx ex : Z) (lx : location) :
  match binary_round_aux prec emax sx mx ex lx with
  | S754_nan => True
  | S754_zero s | S754_infinity s | S754_finite s _ _ => s = sx
  end.
Proof.
  unfold binary_round_aux.
  destruct (shr_fexp prec emax mx ex lx) as [mrs' e'].
  destruct (shr_fexp prec emax _ e' loc_Exact) as [mrs'' e''].
  destruct (shr_m mrs'') as [|m|m]; [reflexivity | | exact I].
  destruct (e'' <=? emax - prec); reflexivity.
Qed.

Lemma positive_float_inv (x : float) :
  (0 <? x)%float = true ->
  (exists m e, Prim2SF x = S754_finite false m e) \/ Prim2SF x = S754_infinity false.
Proof.
  rewrite ltb_spec. replace (Prim2SF 0) with (S754_zero false) by reflexivity.
  unfold SFltb. destruct (Prim2SF x) as [s|s| |s m e]; cbn; try discriminate.
  - destruct s; [discriminate|]. now right.
  - destruct s; [discriminate|]. left. now exists m, e.
Qed.

Lemma SFmul_not_negative (x y : spec_float) :
  not_negative x -> not_negative y -> not_negative (SF64mul x y).
Proof.
  unfold SF64mul.
  destruct x as [sx|sx| |sx mx ex], y as [sy|sy| |sy my ey]; cbn;
    intros Hx Hy; subst; try exact I; try reflexivity.
  change (xorb false false) with false.
  pose proof (binary_round_aux_sign prec emax false (Zpos (mx * my)) (ex + ey) loc_Exact)
    as Hs.
  destruct (binary_round_aux prec emax false (Zpos (mx * my)) (ex + ey) loc_Exact);
    exact Hs.
Qed.

Lemma SFdiv_not_negative (x y : spec_float) :
  not_negative x -> not_negative y -> not_negative (SF64div x y).
Proof.
  unfold SF64div.
  destruct x as [sx|sx| |sx mx ex], y as [sy|sy| |sy my ey]; cbn;
    intros Hx Hy; subst; try exact I; try reflexivity.
  change (xorb false false) with false.
  destruct (SFdiv_core_binary prec emax (Zpos mx) ex (Zpos my) ey) as [[mz ez] lz].
  pose proof (binary_round_aux_sign prec emax false mz ez lz) as Hs.
  destruct (binary_round_aux prec emax false mz ez lz); exact Hs.
Qed.

Lemma positive_float_not_negative (x : float) :
  (0 <? x)%float = true -> not_negative (Prim2SF x).
Proof.
  intros Hx. destruct (positive_float_inv x Hx) as [(m & e & ->)| ->]; reflexivity.
Qed.

(** The quotient the preset takes its count from is not negative when both
    arguments are positive. *)
Lemma quotient_not_negative (max_force force_conversion_factor : float) :
  (0 <? max_force)%float = true ->
  (0 <? force_conversion_factor)%float = true ->
  not_negative (Prim2SF (max_force / (force_conversion_factor * 17.66))%float).
Proof.
  intros Hm Hf. rewrite div_spec, mul_spec.
  apply SFdiv_not_negative.
  - now apply positive_float_not_negative.
  - apply SFmul_not_negative.
    + now apply positive_float_not_negative.
    + vm_compute. reflexivity.
Qed.

(** On a float that is not negative, dropping the fraction is taking the
    floor of the number the float stands for. *)
Lemma int_of_spec_float_floor (x : spec_float) (r : Q) :
  not_negative x ->
  spec_float_value x = Some r ->
  int_of_spec_float x = Ok (Qfloor r).
Proof.
  destruct x as [s|s| |s m e]; cbn; try discriminate.
  - intros _ [= <-]. reflexivity.
  - intros -> [= <-]. cbn [cond_Zopp]. f_equal.
    destruct e as [|k|k]; unfold Qfloor.
    + cbn. now rewrite Z.div_1_r.
    + rewrite Z.div_1_r. apply Z.shiftl_mul_pow2. lia.
    + rewrite Pos2Z.inj_pow.
      change (Z.shiftl (Z.pos m) (Z.neg k)) with (Z.shiftr (Z.pos m) (Z.pos k)).
      apply Z.shiftr_div_pow2. lia.
Qed.

Lemma Prim2SF_nan_is_nan (x : float) :
  Prim2SF x = S754_nan -> PrimFloat.is_nan x = true.
Proof.
  unfold Prim2SF. destruct (PrimFloat.is_nan x); [reflexivity|].
  destruct (PrimFloat.is_zero x); [discriminate|].
  destruct (PrimFloat.is_infinity x); [discriminate|].
  destruct (Z.frexp x) as [r exp].
  destruct (shr_fexp _ _ _ _ _) as [shr e'].
  destruct (shr_m shr); discriminate.
Qed.

Lemma Prim2SF_infinity_not_nan (x : float) (s : bool) :
  Prim2SF x = S754_infinity s -> PrimFloat.is_nan x = false.
Proof.
  unfold Prim2SF. destruct (PrimFloat.is_nan x); [discriminate|reflexivity].
Qed.

(** ** The derived motor unit count *)

(** For positive [max_force] and [force_conversion_factor] the count
    [StandardMuscle] derives is the floor of the quotient
    [max_force / (force_conversion_factor * 17.66)], the quotient being the
    float Python computes: the fraction is dropped, nothing is rounded to
    the nearest integer.  There is a count whenever that float is finite;
    a zero divisor, an infinite or an undefined quotient raise instead. *)
Theorem derive_motor_unit_count_floor (max_force force_conversion_factor : float) :
  (0 <? max_force)%float = true ->
  (0 <? force_conversion_factor)%float = true ->
  let quotient := (max_force / (force_conversion_factor * 17.66))%float in
  StandardMuscle.derive_motor_unit_count max_force force_conversion_factor
  = if PrimFloat.is_zero (force_conversion_factor * 17.66) then Raise ZeroDivisionError
    else match float_value quotient with
         | Some r => Ok (Qfloor r)
         | None => Raise (if PrimFloat.is_nan quotient then ValueError else OverflowError)
         end.
Proof.
  intros Hm Hf quotient.
  pose proof (quotient_not_negative _ _ Hm Hf) as Hsign. fold quotient in Hsign.
  unfold StandardMuscle.derive_motor_unit_count, float_truediv.
  destruct (PrimFloat.is_zero (force_conversion_factor * 17.66)); [reflexivity|].
  cbn [result_bind]. fold quotient. unfold py_int, float_value.
  destruct (spec_float_value (Prim2SF quotient)) as [r|] eqn:Hv.
  - now apply int_of_spec_float_floor.
  - destruct (Prim2SF quotient) as [s|s| |s m e] eqn:Hq; try discriminate;
      cbn [int_of_spec_float].
    + now rewrite (Prim2SF_infinity_not_nan _ _ Hq).
    + now rewrite (Prim2SF_nan_is_nan _ Hq).
Qed.

(** For [max_force = 500] and [force_conversion_factor = 0.028] the count is
    1011, which is also the floor of the quotient of the decimal numbers. *)
Lemma derive_motor_unit_count_floor_witness :
  StandardMuscle.derive_motor_unit_count 500 0.028 = Ok 1011
  /\ 1011 = Qfloor (500 / ((28 # 1000) * (1766 # 100))).
Proof.
  split; [|reflexivity].
  rewrite (derive_motor_unit_count_floor 500 0.028 eq_refl eq_refl).
  reflexivity.
Defined.

(** The fraction is dropped also when it is above one half: 0.98 newtons
    make one unit, the quotient being above 1.98. *)
Lemma derive_motor_unit_count_not_rounded :
  StandardMuscle.derive_motor_unit_count 0.98 0.028 = Ok 1
  /\ exists r, float_value (0.98 / (0.028 * 17.66))%float = Some r /\ (198 # 100 < r)%Q.
Proof.
  split; [reflexivity|]. eexists. split; [reflexivity|]. reflexivity.
Qed.

(** Below zero, which is outside what the preset is meant for, dropping the
    fraction is not the floor. *)
Lemma derive_motor_unit_count_negative_force :
  StandardMuscle.derive_motor_unit_count (-1) 0.028 = Ok (-2)
  /\ exists r, float_value (-1 / (0.028 * 17.66))%float = Some r /\ Qfloor r = -3.
Proof.
  split; [reflexivity|]. eexists. split; reflexivity.
Qed.

Section StandardMuscleFacts.
Context {Pool Fibers : Type} `{Model.t Pool} `{Model.fibers Fibers}.
Variable PotvinFuglevand2017MotorNeuronPool : Z -> bool -> bool -> result Pool.
Variable PyMuscleFibers : Z -> float -> bool -> result Fibers.

(** C9. With the two fatigue flags left out, [StandardMuscle] constructs its
    pool with [apply_fatigue] false and its fibers with [apply_fatigue] true;
    a flag that is given is passed as given. *)
Theorem StandardMuscle_default_fatigue_flags
    (max_force force_conversion_factor : option float)
    (apply_central_fatigue apply_peripheral_fatigue pre_calc_firing_rates : option bool) :
  let newtons := or_default max_force 60.0%float in
  let factor := or_default force_conversion_factor 0.028%float in
  let constructed (central peripheral : bool) :=
    let* motor_unit_count := StandardMuscle.derive_motor_unit_count newtons factor in
    let* pool := PotvinFuglevand2017MotorNeuronPool
                   motor_unit_count central (or_default pre_calc_firing_rates false) in
    let* fibers := PyMuscleFibers motor_unit_count factor peripheral in
    let* muscle := Muscle.__init__ pool fibers in
    Ok {| StandardMuscle.max_force := newtons;
          StandardMuscle.force_conversion_factor := factor;
          StandardMuscle.base := muscle |} in
  StandardMuscle.__init__ PotvinFuglevand2017MotorNeuronPool PyMuscleFibers
    max_force force_conversion_factor None None pre_calc_firing_rates
  = constructed false true
  /\ StandardMuscle.__init__ PotvinFuglevand2017MotorNeuronPool PyMuscleFibers
       max_force force_conversion_factor
       (Some (or_default apply_central_fatigue false))
       (Some (or_default apply_peripheral_fatigue true)) pre_calc_firing_rates
     = constructed (or_default apply_central_fatigue false)
                   (or_default apply_peripheral_fatigue true).
Proof. split; reflexivity. Qed.

(** C10. 0.4 newtons at the default conversion factor are positive
    arguments, with [max_force] below [force_conversion_factor * 17.66],
    and the derived count is zero.  The constructor does not look at the
    count: it goes on to construct the pool and the fibers with zero units
    and to compose them. *)
Theorem StandardMuscle_zero_units
    (apply_central_fatigue apply_peripheral_fatigue pre_calc_firing_rates : option bool) :
  (0 <? 0.4)%float = true
  /\ (0 <? 0.028)%float = true
  /\ (0.4 <? 0.028 * 17.66)%float = true
  /\ StandardMuscle.derive_motor_unit_count 0.4 0.028 = Ok 0
  /\ StandardMuscle.__init__ PotvinFuglevand2017MotorNeuronPool PyMuscleFibers
       (Some 0.4%float) (Some 0.028%float)
       apply_central_fatigue apply_peripheral_fatigue pre_calc_firing_rates
     = (let* pool := PotvinFuglevand2017MotorNeuronPool 0
                       (or_default apply_central_fatigue false)
                       (or_default pre_calc_firing_rates false) in
        let* fibers := PyMuscleFibers 0 0.028%float
                         (or_default apply_peripheral_fatigue true) in
        let* muscle := Muscle.__init__ pool fibers in
        Ok {| StandardMuscle.max_force := 0.4%float;
              StandardMuscle.force_conversion_factor := 0.028%float;
              StandardMuscle.base := muscle |}).
Proof. repeat split. Qed.
End StandardMuscleFacts.

(** * Further properties of the orchestrator *)

Section StepFailures.
Context {Pool Fibers : Type} `{Numpy.t} `{Model.t Pool} `{Model.fibers Fibers}.
Implicit Types (self : Muscle.t Pool Fibers).

Lemma pool_then_fibers_raise_inv self per_unit step_size e :
  snd (pool_then_fibers self per_unit step_size) = Raise e ->
  snd (Model.step (Muscle._pool self) [per_unit; step_size]) = Raise e
  \/ exists pool' activation,
       Model.step (Muscle._pool self) [per_unit; step_size] = (pool', Ok activation)
       /\ snd (Model.step (Muscle._fibers self) [activation]) = Raise e.
Proof.
  unfold pool_then_fibers.
  destruct (Model.step (Muscle._pool self) [per_unit; step_size]) as [pool' [a|e']].
  - destruct (Model.step (Muscle._fibers self) [a]) as [fibers' r] eqn:Hf.
    cbn. intros ->. right. exists pool', a. rewrite Hf. now split.
  - cbn. intros [= ->]. now left.
Qed.

(** X1. Where an exception of [step] comes from.  Either numpy refused to build
    the vector for a scalar input, with a [ValueError] or a [MemoryError],
    and then no model was stepped; or the input was expanded and the pool's
    step raised it on the expanded input and the step size; or the pool
    returned and the fibers' step raised it on the pool's output.  The
    orchestrator raises nothing else, and no [AssertionError] of its own. *)
Theorem step_raises_only_what_was_raised self input step_size e :
  snd (Muscle.step input step_size self) = Raise e ->
  let n := Model.motor_unit_count (Muscle._pool self) in
  ((exists v, input = Scalar v /\ np_full n (Scalar v) = Raise e)
   /\ (e = ValueError \/ e = MemoryError)
   /\ fst (Muscle.step input step_size self) = self)
  \/ exists expanded,
       expand n input = Ok expanded
       /\ (snd (Model.step (Muscle._pool self) [expanded; step_size]) = Raise e
           \/ exists pool' activation,
                Model.step (Muscle._pool self) [expanded; step_size]
                  = (pool', Ok activation)
                /\ snd (Model.step (Muscle._fibers self) [activation]) = Raise e).
Proof.
  intros Hraise n. rewrite step_expand in Hraise |- *. fold n in Hraise |- *.
  destruct (expand n input) as [expanded|e'] eqn:Hexp.
  - right. exists expanded. split; [reflexivity|].
    now apply pool_then_fibers_raise_inv.
  - left. cbn in Hraise. injection Hraise as ->.
    destruct (expand_raise_inv _ _ _ Hexp) as [[v ->] He].
    rewrite expand_scalar in Hexp. repeat split; eauto.
Qed.

(** X2. A muscle whose pool reports a negative count cannot be stepped with a
    scalar: numpy's [ValueError] comes out and neither model is touched.  An
    array, a list or None is still handed to the pool. *)
Theorem step_with_negative_count self step_size :
  Model.motor_unit_count (Muscle._pool self) < 0 ->
  (forall v, Muscle.step (Scalar v) step_size self = (self, Raise ValueError))
  /\ (forall input, (forall v, input <> Scalar v) ->
        Muscle.step input step_size self = pool_then_fibers self input step_size).
Proof.
  intros Hneg. split.
  - intros v. now apply step_scalar_negative_count.
  - intros input Hns. apply step_per_unit.
    destruct input as [v|xs|xs|]; try reflexivity. now destruct (Hns v).
Qed.
End StepFailures.

(** An array of one entry for three units: the input is not expanded and
    the pool's step raises the [ValueError]. *)
Lemma step_raises_only_what_was_raised_witness :
  exists expanded,
    expand (Model.motor_unit_count (Muscle._pool Stub.muscle3))
      (NdArray [PyFloat 32.0]) = Ok expanded
    /\ snd (Model.step (Muscle._pool Stub.muscle3) [expanded; Scalar (PyFloat 0.02)])
       = Raise ValueError.
Proof.
  assert (Hraise : snd (Muscle.step (NdArray [PyFloat 32.0]) (Scalar (PyFloat 0.02))
                          Stub.muscle3) = Raise ValueError)
    by (vm_compute; reflexivity).
  destruct (step_raises_only_what_was_raised Stub.muscle3 (NdArray [PyFloat 32.0])
              (Scalar (PyFloat 0.02)) ValueError Hraise)
    as [((v & Hv & _) & _)|(expanded & Hexp & [Hpool|(pool' & a & Hp & _)])].
  - discriminate Hv.
  - exists expanded. now split.
  - exfalso. cbn in Hexp. injection Hexp as <-. cbn in Hp. discriminate Hp.
Defined.

Lemma step_with_negative_count_witness :
  let pool := {| Stub.pool_count := -2; Stub.pool_apply_fatigue := false;
                 Stub.pool_pre_calc_firing_rates := false; Stub.pool_calls := [] |} in
  let self := {| Muscle._pool := pool; Muscle._fibers := Stub.fibers3 |} in
  Muscle.step (Scalar (PyFloat 32.0)) (Scalar (PyFloat 0.02)) self
  = (self, Raise ValueError).
Proof.
  intros pool self.
  apply (step_with_negative_count self (Scalar (PyFloat 0.02))).
  vm_compute. reflexivity.
Defined.

(** * The presets on constructors that honour the count *)

(** A model constructor honours the count when the object it returns
    reports the [motor_unit_count] it was constructed with. *)
Section PresetsCompose.
Context {Pool Fibers : Type} `{Model.t Pool} `{Model.fibers Fibers}.
Variable PotvinFuglevand2017MotorNeuronPool : Z -> bool -> bool -> result Pool.
Variable PotvinFuglevand2017MuscleFibers : Z -> bool -> result Fibers.
Variable PyMuscleFibers : Z -> float -> bool -> result Fibers.
Hypothesis pool_honours_count : forall n fatigue pre_calc pool,
  PotvinFuglevand2017MotorNeuronPool n fatigue pre_calc = Ok pool ->
  Model.motor_unit_count pool = n.
Hypothesis potvin_fibers_honour_count : forall n fatigue fibers,
  PotvinFuglevand2017MuscleFibers n fatigue = Ok fibers ->
  Model.motor_unit_count fibers = n.
Hypothesis pymuscle_fibers_honour_count : forall n factor fatigue fibers,
  PyMuscleFibers n factor fatigue = Ok fibers ->
  Model.motor_unit_count fibers = n.

(** X3. [PotvinFuglevandMuscle(motor_unit_count, ...)] never fails the count
    check.  It constructs the pool first, with the central fatigue flag,
    which is on by default, and the firing rate flag, which is off by
    default; then the fibers with the peripheral fatigue flag, on by
    default.  It raises what the first failing constructor raised, and
    otherwise returns the muscle of the two, of the count asked for. *)
Theorem PotvinFuglevandMuscle_composes (motor_unit_count : Z)
    (apply_central_fatigue apply_peripheral_fatigue pre_calc_firing_rates : option bool) :
  PotvinFuglevandMuscle.__init__
    PotvinFuglevand2017MotorNeuronPool PotvinFuglevand2017MuscleFibers
    motor_unit_count apply_central_fatigue apply_peripheral_fatigue pre_calc_firing_rates
  = match PotvinFuglevand2017MotorNeuronPool motor_unit_count
            (or_default apply_central_fatigue true)
            (or_default pre_calc_firing_rates false) with
    | Raise e => Raise e
    | Ok pool =>
        match PotvinFuglevand2017MuscleFibers motor_unit_count
                (or_default apply_peripheral_fatigue true) with
        | Raise e => Raise e
        | Ok fibers => Ok {| Muscle._pool := pool; Muscle._fibers := fibers |}
        end
    end
  /\ forall self,
       PotvinFuglevandMuscle.__init__
         PotvinFuglevand2017MotorNeuronPool PotvinFuglevand2017MuscleFibers
         motor_unit_count apply_central_fatigue apply_peripheral_fatigue
         pre_calc_firing_rates = Ok self ->
       Muscle.motor_unit_count self = (self, Ok motor_unit_count)
       /\ Model.motor_unit_count (Muscle._fibers self) = motor_unit_count.
Proof.
  unfold PotvinFuglevandMuscle.__init__.
  destruct (PotvinFuglevand2017MotorNeuronPool motor_unit_count
              (or_default apply_central_fatigue true)
              (or_default pre_calc_firing_rates false)) as [pool|e] eqn:Hp;
    cbn [result_bind]; [|split; [reflexivity|discriminate]].
  destruct (PotvinFuglevand2017MuscleFibers motor_unit_count
              (or_default apply_peripheral_fatigue true)) as [fibers|e] eqn:Hf;
    cbn [result_bind]; [|split; [reflexivity|discriminate]].
  pose proof (pool_honours_count _ _ _ _ Hp) as Hpc.
  pose proof (potvin_fibers_honour_count _ _ _ Hf) as Hfc.
  assert (Hinit : Muscle.__init__ pool fibers
                  = Ok {| Muscle._pool := pool; Muscle._fibers := fibers |})
    by (apply init_ok_iff; congruence).
  rewrite Hinit. split; [reflexivity|].
  intros self [= <-]. unfold Muscle.motor_unit_count, attr. cbn.
  now rewrite Hpc.
Qed.

(** X4. [StandardMuscle(max_force, force_conversion_factor, ...)] never fails
    the count check either.  It raises what the derivation of the count
    raised, before any model is constructed; else what the pool's
    constructor raised; else what the fibers' constructor raised; and
    otherwise returns an instance that keeps the two arguments as given, or
    their defaults 60.0 and 0.028, and whose models both have the derived
    count. *)
Theorem StandardMuscle_composes (max_force force_conversion_factor : option float)
    (apply_central_fatigue apply_peripheral_fatigue pre_calc_firing_rates : option bool) :
  let newtons := or_default max_force 60.0%float in
  let factor := or_default force_conversion_factor 0.028%float in
  StandardMuscle.__init__ PotvinFuglevand2017MotorNeuronPool PyMuscleFibers
    max_force force_conversion_factor
    apply_central_fatigue apply_peripheral_fatigue pre_calc_firing_rates
  = match StandardMuscle.derive_motor_unit_count newtons factor with
    | Raise e => Raise e
    | Ok motor_unit_count =>
        match PotvinFuglevand2017MotorNeuronPool motor_unit_count
                (or_default apply_central_fatigue false)
                (or_default pre_calc_firing_rates false) with
        | Raise e => Raise e
        | Ok pool =>
            match PyMuscleFibers motor_unit_count factor
                    (or_default apply_peripheral_fatigue true) with
            | Raise e => Raise e
            | Ok fibers =>
                Ok {| StandardMuscle.max_force := newtons;
                      StandardMuscle.force_conversion_factor := factor;
                      StandardMuscle.base :=
                        {| Muscle._pool := pool; Muscle._fibers := fibers |} |}
            end
        end
    end
  /\ forall self,
       StandardMuscle.__init__ PotvinFuglevand2017MotorNeuronPool PyMuscleFibers
         max_force force_conversion_factor
         apply_central_fatigue apply_peripheral_fatigue pre_calc_firing_rates
       = Ok self ->
       StandardMuscle.derive_motor_unit_count newtons factor
         = Ok (StandardMuscle.motor_unit_count self)
       /\ Model.motor_unit_count (Muscle._fibers (StandardMuscle.base self))
          = StandardMuscle.motor_unit_count self.
Proof.
  intros newtons factor. unfold StandardMuscle.__init__.
  fold newtons. fold factor.
  destruct (StandardMuscle.derive_motor_unit_count newtons factor) as [n|e];
    cbn [result_bind]; [|split; [reflexivity|discriminate]].
  destruct (PotvinFuglevand2017MotorNeuronPool n
              (or_default apply_central_fatigue false)
              (or_default pre_calc_firing_rates false)) as [pool|e] eqn:Hp;
    cbn [result_bind]; [|split; [reflexivity|discriminate]].
  destruct (PyMuscleFibers n factor (or_default apply_peripheral_fatigue true))
    as [fibers|e] eqn:Hf;
    cbn [result_bind]; [|split; [reflexivity|discriminate]].
  pose proof (pool_honours_count _ _ _ _ Hp) as Hpc.
  pose proof (pymuscle_fibers_honour_count _ _ _ _ Hf) as Hfc.
  assert (Hinit : Muscle.__init__ pool fibers
                  = Ok {| Muscle._pool := pool; Muscle._fibers := fibers |})
    by (apply init_ok_iff; congruence).
  rewrite Hinit. cbn [result_bind]. split; [reflexivity|].
  intros self [= <-]. unfold StandardMuscle.motor_unit_count. cbn.
  split; congruence.
Qed.
End PresetsCompose.

Lemma stub_new_pool_honours_count (n : Z) (fatigue pre_calc : bool) (pool : Stub.pool) :
  Stub.new_pool n fatigue pre_calc = Ok pool -> Model.motor_unit_count pool = n.
Proof. now intros [= <-]. Qed.

Lemma stub_new_fibers_honour_count (n : Z) (factor : float) (fatigue : bool)
    (fibers : Stub.fibers) :
  Stub.new_fibers n factor fatigue = Ok fibers -> Model.motor_unit_count fibers = n.
Proof. now intros [= <-]. Qed.

(** Sixty units, every flag left out: central fatigue is on. *)
Lemma PotvinFuglevandMuscle_composes_witness :
  exists self,
    PotvinFuglevandMuscle.__init__ Stub.new_pool
      (fun n fatigue => Stub.new_fibers n 0.028 fatigue) 60 None None None = Ok self
    /\ Muscle.motor_unit_count self = (self, Ok 60)
    /\ Stub.pool_apply_fatigue (Muscle._pool self) = true
    /\ Stub.fibers_apply_fatigue (Muscle._fibers self) = true.
Proof.
  destruct (PotvinFuglevandMuscle_composes Stub.new_pool
              (fun n fatigue => Stub.new_fibers n 0.028 fatigue)
              stub_new_pool_honours_count
              (fun n fatigue => stub_new_fibers_honour_count n 0.028 fatigue)
              60 None None None) as [Hinit Hcount].
  eexists. split; [rewrite Hinit; reflexivity|].
  split; [apply Hcount; rewrite Hinit; reflexivity|].
  split; reflexivity.
Defined.

(** Every argument left out: 60 newtons at 0.028 make 121 units. *)
Lemma StandardMuscle_composes_witness :
  exists self,
    StandardMuscle.__init__ Stub.new_pool Stub.new_fibers None None None None None
      = Ok self
    /\ StandardMuscle.motor_unit_count self = 121
    /\ Model.motor_unit_count (Muscle._fibers (StandardMuscle.base self)) = 121
    /\ StandardMuscle.max_force self = 60.0%float
    /\ StandardMuscle.force_conversion_factor self = 0.028%float.
Proof.
  destruct (StandardMuscle_composes Stub.new_pool Stub.new_fibers
              stub_new_pool_honours_count stub_new_fibers_honour_count
              None None None None None) as [Hinit Hcount].
  eexists. split; [rewrite Hinit; reflexivity|].
  split; [reflexivity|]. split; [|split; reflexivity].
  destruct (Hcount _ ltac:(rewrite Hinit; reflexivity)) as [_ Hf]. exact Hf.
Defined.

(** * Further properties of the derived count *)

(** ** Floats: zero, NaN, digits and shifts *)

Lemma is_nan_iff (x : float) : PrimFloat.is_nan x = true <-> Prim2SF x = S754_nan.
Proof.
  split; [|apply Prim2SF_nan_is_nan].
  intros Hn. unfold Prim2SF. now rewrite Hn.
Qed.

Lemma is_zero_iff (x : float) :
  PrimFloat.is_zero x = true <-> exists s, Prim2SF x = S754_zero s.
Proof.
  unfold PrimFloat.is_zero. rewrite FloatAxioms.eqb_spec.
  replace (Prim2SF 0) with (S754_zero false) by reflexivity.
  unfold SFeqb.
  destruct (Prim2SF x) as [s|s| |s m e]; cbn.
  - split; [intros _; now exists s | reflexivity].
  - split; [destruct s; intros Hd; discriminate Hd | intros [s' Hd]; discriminate Hd].
  - split; [intros Hd; discriminate Hd | intros [s' Hd]; discriminate Hd].
  - split; [destruct s; intros Hd; discriminate Hd | intros [s' Hd]; discriminate Hd].
Qed.
Lemma digits2_pos_size (p : positive) : digits2_pos p = Pos.size p.
Proof. induction p; cbn; congruence. Qed.


Lemma shr_1_div2 (mrs : shr_record) :
  0 <= shr_m mrs -> shr_m (shr_1 mrs) = shr_m mrs / 2.
Proof.
  destruct mrs as [m r s]. cbn [shr_m]. intros Hm.
  destruct m as [|p|p]; [reflexivity| |exfalso; lia].
  destruct p as [p|p|]; cbn [shr_1 shr_m].
  - rewrite Pos2Z.inj_xI. apply Z.div_unique with (r := 1); lia.
  - rewrite Pos2Z.inj_xO. apply Z.div_unique with (r := 0); lia.
  - reflexivity.
Qed.

Lemma pow2_pos (k : Z) : 0 <= k -> 0 < 2 ^ k.
Proof. intros Hk. apply Z.pow_pos_nonneg; lia. Qed.

Lemma iter_shr_1_div (p : positive) : forall mrs,
  0 <= shr_m mrs -> shr_m (iter_pos shr_1 p mrs) = shr_m mrs / 2 ^ Zpos p.
Proof.
  assert (Hnn : forall mrs q, 0 <= shr_m mrs -> 0 <= shr_m mrs / 2 ^ Zpos q).
  { intros mrs q Hm. apply Z.div_pos; [exact Hm|]. apply pow2_pos; lia. }
  induction p as [p IH|p IH|]; intros mrs Hm; cbn [iter_pos].
  - pose proof (shr_1_div2 mrs Hm) as H1.
    assert (H1nn : 0 <= shr_m (shr_1 mrs)) by (rewrite H1; apply Z.div_pos; lia).
    pose proof (pow2_pos (Zpos p) ltac:(lia)) as Hp.
    rewrite IH by (rewrite IH by assumption; now apply Hnn).
    rewrite IH by assumption. rewrite H1.
    rewrite !Z.div_div by lia. f_equal.
    replace (Zpos p~1) with (1 + Zpos p + Zpos p) by lia.
    rewrite !Z.pow_add_r by lia. rewrite Z.pow_1_r. ring.
  - pose proof (pow2_pos (Zpos p) ltac:(lia)) as Hp.
    rewrite IH by (rewrite IH by assumption; now apply Hnn).
    rewrite IH by assumption.
    rewrite !Z.div_div by lia. f_equal.
    replace (Zpos p~0) with (Zpos p + Zpos p) by lia.
    rewrite !Z.pow_add_r by lia. ring.
  - rewrite shr_1_div2 by assumption. reflexivity.
Qed.

Lemma Zdigits2_bounds (m : positive) :
  2 ^ (Zdigits2 (Zpos m) - 1) <= Zpos m < 2 ^ Zdigits2 (Zpos m).
Proof.
  cbn [Zdigits2]. rewrite digits2_pos_size.
  pose proof (Pos.size_gt m) as Hgt. pose proof (Pos.size_le m) as Hle.
  apply Pos2Z.pos_lt_pos in Hgt. apply Pos2Z.pos_le_pos in Hle.
  rewrite Pos2Z.inj_pow in Hgt, Hle.
  split; [|exact Hgt].
  replace (Zpos (Pos.size m)) with (1 + (Zpos (Pos.size m) - 1)) in Hle by lia.
  rewrite Z.pow_add_r in Hle by lia. rewrite Z.pow_1_r in Hle. lia.
Qed.

Lemma shr_record_of_loc_m (m : Z) (l : location) : shr_m (shr_record_of_loc m l) = m.
Proof. destruct l as [|[| |]]; reflexivity. Qed.

Lemma round_nearest_even_ge (m : Z) (l : location) : m <= round_nearest_even m l.
Proof.
  destruct l as [|[| |]]; cbn [round_nearest_even]; try lia.
  destruct (Z.even m); lia.
Qed.

(** Rounding to the format does not lose a positive mantissa that lies
    above the smallest exponent. *)
Lemma shr_fexp_positive (m : positive) (e : Z) (l : location) :
  SpecFloat.emin prec emax < Zdigits2 (Zpos m) + e ->
  1 <= shr_m (fst (shr_fexp prec emax (Zpos m) e l))
  /\ SpecFloat.emin prec emax <= snd (shr_fexp prec emax (Zpos m) e l).
Proof.
  intros Hmin. pose proof (Zdigits2_bounds m) as [Hlo _].
  unfold shr_fexp, shr.
  remember (Zdigits2 (Zpos m)) as d eqn:Hd.
  assert (Hd1 : 1 <= d) by (subst d; cbn; lia).
  destruct (fexp prec emax (d + e) - e) as [|p|p] eqn:Hn; cbn [fst snd].
  - rewrite shr_record_of_loc_m. unfold fexp, SpecFloat.emin, prec, emax in *. lia.
  - rewrite iter_shr_1_div by (rewrite shr_record_of_loc_m; lia).
    rewrite shr_record_of_loc_m. split.
    + apply Z.div_le_lower_bound; [apply pow2_pos; lia|]. rewrite Z.mul_1_r.
      eapply Z.le_trans; [|exact Hlo]. apply Z.pow_le_mono_r; [lia|].
      unfold fexp, SpecFloat.emin, prec, emax in *. lia.
    + unfold fexp, SpecFloat.emin, prec, emax in *. lia.
  - rewrite shr_record_of_loc_m. unfold fexp, SpecFloat.emin, prec, emax in *. lia.
Qed.

Lemma binary_round_aux_not_zero (s : bool) (m : positive) (e : Z) (l : location) :
  SpecFloat.emin prec emax < Zdigits2 (Zpos m) + e ->
  forall s', binary_round_aux prec emax s (Zpos m) e l <> S754_zero s'.
Proof.
  intros Hmin s'. unfold binary_round_aux.
  pose proof (shr_fexp_positive m e l Hmin) as [Hm1 He1].
  destruct (shr_fexp prec emax (Zpos m) e l) as [mrs' e'] eqn:H1. cbn [fst snd] in *.
  pose proof (round_nearest_even_ge (shr_m mrs') (loc_of_shr_record mrs')) as Hr.
  destruct (round_nearest_even (shr_m mrs') (loc_of_shr_record mrs')) as [|mr|mr];
    try (exfalso; lia).
  assert (Hmin' : SpecFloat.emin prec emax < Zdigits2 (Zpos mr) + e') by (cbn [Zdigits2]; lia).
  pose proof (shr_fexp_positive mr e' loc_Exact Hmin') as [Hm2 _].
  destruct (shr_fexp prec emax (Zpos mr) e' loc_Exact) as [mrs'' e''].
  cbn [fst] in Hm2.
  destruct (shr_m mrs'') as [|m2|m2]; try (exfalso; lia).
  destruct (e'' <=? emax - prec); intros Hz; discriminate Hz.
Qed.

Lemma Prim2SF_17_66 : Prim2SF 17.66 = seventeen_66.
Proof. reflexivity. Qed.

Lemma valid_exponent_ge_emin (s : bool) (m : positive) (e : Z) :
  valid_binary (S754_finite s m e) = true -> SpecFloat.emin prec emax <= e.
Proof.
  cbn [valid_binary]. unfold bounded, canonical_mantissa. intros Hv.
  apply andb_true_iff in Hv. destruct Hv as [Hc _]. apply Z.eqb_eq in Hc.
  unfold fexp in Hc. lia.
Qed.

Lemma digits_of_product (m : positive) :
  Zdigits2 (Zpos m) + 52 <= Zdigits2 (Zpos (m * 4970848088710185)).
Proof.
  pose proof (Zdigits2_bounds m) as [Hlo _].
  pose proof (Zdigits2_bounds (m * 4970848088710185)) as [_ Hhi].
  assert (Hd : 1 <= Zdigits2 (Zpos m)) by (cbn; lia).
  assert (Hprod : 2 ^ (Zdigits2 (Zpos m) - 1 + 52) < 2 ^ Zdigits2 (Zpos (m * 4970848088710185))).
  { eapply Z.le_lt_trans; [|exact Hhi].
    rewrite Z.pow_add_r by lia. rewrite Pos2Z.inj_mul.
    apply Z.mul_le_mono_nonneg.
    - apply Z.pow_nonneg. lia.
    - exact Hlo.
    - apply Z.pow_nonneg. lia.
    - apply Z.lt_le_incl. reflexivity. }
  apply Z.pow_lt_mono_r_iff in Hprod; [lia | lia | cbn; lia].
Qed.

(** Multiplying by 17.66 never underflows to zero. *)
Lemma times_17_66_is_zero (x : float) :
  PrimFloat.is_zero (x * 17.66) = PrimFloat.is_zero x.
Proof.
  destruct (PrimFloat.is_zero x) eqn:Hx.
  - apply is_zero_iff in Hx. destruct Hx as [s Hx].
    apply is_zero_iff. exists (xorb s false).
    rewrite mul_spec, Hx, Prim2SF_17_66. reflexivity.
  - destruct (PrimFloat.is_zero (x * 17.66)) eqn:Hp; [|reflexivity].
    apply is_zero_iff in Hp. destruct Hp as [s' Hp].
    rewrite mul_spec, Prim2SF_17_66 in Hp.
    pose proof (Prim2SF_valid x) as Hv.
    destruct (Prim2SF x) as [s|s| |s m e] eqn:Hsf.
    + assert (Hz : PrimFloat.is_zero x = true) by (apply is_zero_iff; now exists s).
      congruence.
    + discriminate Hp.
    + discriminate Hp.
    + exfalso. unfold SF64mul, SFmul, seventeen_66 in Hp.
      revert Hp. apply binary_round_aux_not_zero.
      pose proof (valid_exponent_ge_emin _ _ _ Hv) as He.
      pose proof (digits_of_product m) as Hd.
      assert (Hd1 : 1 <= Zdigits2 (Zpos m)) by (cbn; lia).
      lia.
Qed.

Lemma Qtruncate_quot (a : Z) (d : positive) : Qtruncate (a # d) = Z.quot a (Zpos d).
Proof.
  unfold Qtruncate, Qle_bool, Qceiling, Qfloor, Qopp. cbn [Qnum Qden].
  rewrite Z.mul_0_l, Z.mul_1_r.
  destruct (Z.leb_spec 0 a) as [Ha|Ha].
  - symmetry. apply Z.quot_div_nonneg; lia.
  - rewrite <- (Z.opp_involutive a) at 2. rewrite Z.quot_opp_l by lia.
    f_equal. symmetry. apply Z.quot_div_nonneg; lia.
Qed.

Lemma int_of_spec_float_truncates (x : spec_float) (r : Q) :
  spec_float_value x = Some r -> int_of_spec_float x = Ok (Qtruncate r).
Proof.
  destruct x as [s|s| |s m e]; cbn [spec_float_value int_of_spec_float];
    intros Hr; try discriminate Hr.
  - injection Hr as <-. reflexivity.
  - injection Hr as <-. f_equal.
    destruct e as [|k|k]; rewrite Qtruncate_quot.
    + rewrite Z.quot_1_r. reflexivity.
    + rewrite Z.quot_1_r. rewrite Z.shiftl_mul_pow2 by lia.
      destruct s; cbn [cond_Zopp]; lia.
    + change (Z.shiftl (Z.pos m) (Z.neg k)) with (Z.shiftr (Z.pos m) (Z.pos k)).
      rewrite Z.shiftr_div_pow2 by lia. rewrite Pos2Z.inj_pow.
      assert (Hp : 0 < 2 ^ Zpos k) by (apply pow2_pos; lia).
      rewrite <- Z.quot_div_nonneg by lia.
      destruct s; cbn [cond_Zopp]; [|reflexivity].
      rewrite <- Z.quot_opp_l by lia. reflexivity.
Qed.

Lemma derive_unfold (max_force force_conversion_factor : float) :
  StandardMuscle.derive_motor_unit_count max_force force_conversion_factor
  = if PrimFloat.is_zero force_conversion_factor then Raise ZeroDivisionError
    else py_int (max_force / (force_conversion_factor * 17.66)).
Proof.
  unfold StandardMuscle.derive_motor_unit_count, float_truediv.
  rewrite times_17_66_is_zero.
  now destruct (PrimFloat.is_zero force_conversion_factor).
Qed.

Lemma py_int_no_zero_division (x : float) : py_int x <> Raise ZeroDivisionError.
Proof.
  unfold py_int. destruct (Prim2SF x); cbn [int_of_spec_float]; intros Hd; discriminate Hd.
Qed.

Section DeriveErrors.
Context {Pool Fibers : Type} `{Model.t Pool} `{Model.fibers Fibers}.
Variable PotvinFuglevand2017MotorNeuronPool : Z -> bool -> bool -> result Pool.
Variable PyMuscleFibers : Z -> float -> bool -> result Fibers.

(** X5. The derivation raises [ZeroDivisionError] exactly when
    [force_conversion_factor] is zero, of either sign, whatever [max_force]
    is: the product with 17.66 never underflows to zero.  [StandardMuscle]
    then raises it before any model is constructed. *)
Theorem zero_division_iff_zero_factor (max_force force_conversion_factor : float) :
  (StandardMuscle.derive_motor_unit_count max_force force_conversion_factor
     = Raise ZeroDivisionError
   <-> PrimFloat.is_zero force_conversion_factor = true)
  /\ (PrimFloat.is_zero force_conversion_factor = true ->
      forall central peripheral pre_calc,
        StandardMuscle.__init__ PotvinFuglevand2017MotorNeuronPool PyMuscleFibers
          (Some max_force) (Some force_conversion_factor) central peripheral pre_calc
        = Raise ZeroDivisionError).
Proof.
  split; [split|].
  - rewrite derive_unfold.
    destruct (PrimFloat.is_zero force_conversion_factor); [reflexivity|].
    intros Hq. now destruct (py_int_no_zero_division _ Hq).
  - intros Hz. rewrite derive_unfold. now rewrite Hz.
  - intros Hz central peripheral pre_calc. unfold StandardMuscle.__init__.
    cbn [or_default]. rewrite derive_unfold, Hz. reflexivity.
Qed.
End DeriveErrors.

(** X6. For every two floats, of any sign: the derivation raises
    [ZeroDivisionError] for a zero factor; else, when the quotient
    [max_force / (force_conversion_factor * 17.66)] is a finite float, the
    count is that number with the fraction dropped, towards zero; else it
    raises [ValueError] for a NaN quotient and [OverflowError] for an
    infinite one. *)
Theorem derive_motor_unit_count_truncates (max_force force_conversion_factor : float) :
  let quotient := (max_force / (force_conversion_factor * 17.66))%float in
  StandardMuscle.derive_motor_unit_count max_force force_conversion_factor
  = if PrimFloat.is_zero force_conversion_factor then Raise ZeroDivisionError
    else match float_value quotient with
         | Some r => Ok (Qtruncate r)
         | None => Raise (if PrimFloat.is_nan quotient then ValueError else OverflowError)
         end.
Proof.
  intros quotient. rewrite derive_unfold. fold quotient.
  destruct (PrimFloat.is_zero force_conversion_factor); [reflexivity|].
  unfold py_int, float_value.
  destruct (spec_float_value (Prim2SF quotient)) as [r|] eqn:Hv.
  - now apply int_of_spec_float_truncates.
  - destruct (Prim2SF quotient) as [s|s| |s m e] eqn:Hq; try discriminate Hv;
      cbn [int_of_spec_float].
    + now rewrite (Prim2SF_infinity_not_nan _ _ Hq).
    + now rewrite (Prim2SF_nan_is_nan _ Hq).
Qed.

(** X7. A NaN argument gives no count: [ValueError], or [ZeroDivisionError] when
    [max_force] is the NaN and the factor is zero. *)
Theorem nan_argument_gives_no_count (max_force force_conversion_factor : float) :
  PrimFloat.is_nan max_force = true \/ PrimFloat.is_nan force_conversion_factor = true ->
  StandardMuscle.derive_motor_unit_count max_force force_conversion_factor
  = Raise (if PrimFloat.is_zero force_conversion_factor
           then ZeroDivisionError else ValueError).
Proof.
  intros Hnan. rewrite derive_unfold.
  destruct (PrimFloat.is_zero force_conversion_factor); [reflexivity|].
  unfold py_int. rewrite div_spec, mul_spec.
  destruct Hnan as [Hm|Hf].
  - apply is_nan_iff in Hm. rewrite Hm. reflexivity.
  - apply is_nan_iff in Hf. rewrite Hf. cbn.
    destruct (Prim2SF max_force); reflexivity.
Qed.

Lemma valid_mantissa_bound (s : bool) (m : positive) (e : Z) :
  valid_binary (S754_finite s m e) = true -> Zpos m < 2 ^ 53.
Proof.
  cbn [valid_binary]. unfold bounded, canonical_mantissa, fexp.
  intros Hv. apply andb_true_iff in Hv. destruct Hv as [Hc _].
  apply Z.eqb_eq in Hc.
  pose proof (Zdigits2_bounds m) as [_ Hhi]. cbn [Zdigits2] in Hhi.
  unfold prec in Hc. assert (Hd : Zpos (digits2_pos m) <= 53) by lia.
  eapply Z.lt_le_trans; [exact Hhi|].
  apply (Z.pow_le_mono_r 2 (Zpos (digits2_pos m)) 53); lia.
Qed.

(** A float above the subnormal range carries all 53 bits. *)
Lemma valid_normal_mantissa (s : bool) (m : positive) (e : Z) :
  valid_binary (S754_finite s m e) = true ->
  SpecFloat.emin prec emax < e -> 2 ^ 52 <= Zpos m.
Proof.
  cbn [valid_binary]. unfold bounded, canonical_mantissa, fexp.
  intros Hv He. apply andb_true_iff in Hv. destruct Hv as [Hc _].
  apply Z.eqb_eq in Hc.
  pose proof (Zdigits2_bounds m) as [Hlo _]. cbn [Zdigits2] in Hlo.
  assert (Hd : Zpos (digits2_pos m) = 53) by (unfold prec in *; lia).
  rewrite Hd in Hlo. exact Hlo.
Qed.

Lemma shiftl_neg_small (m k : positive) :
  Zpos m < 2 ^ Zpos k -> Z.shiftl (Zpos m) (Zneg k) = 0.
Proof.
  intros Hm.
  change (Z.shiftl (Z.pos m) (Z.neg k)) with (Z.shiftr (Z.pos m) (Z.pos k)).
  rewrite Z.shiftr_div_pow2 by apply Pos2Z.is_nonneg.
  apply Z.div_small. split; [apply Pos2Z.is_nonneg | exact Hm].
Qed.

Lemma shiftl_neg_large (m k : positive) :
  2 ^ Zpos k <= Zpos m -> 1 <= Z.shiftl (Zpos m) (Zneg k).
Proof.
  intros Hm.
  change (Z.shiftl (Z.pos m) (Z.neg k)) with (Z.shiftr (Z.pos m) (Z.pos k)).
  rewrite Z.shiftr_div_pow2 by apply Pos2Z.is_nonneg.
  apply Z.div_le_lower_bound; [apply pow2_pos; lia|]. now rewrite Z.mul_1_r.
Qed.

Lemma Prim2SF_one : Prim2SF 1 = SF_one.
Proof. reflexivity. Qed.

(** What is not negative and below one has no integral part. *)
Lemma int_below_one (x : spec_float) :
  valid_binary x = true -> not_negative x -> SFltb x SF_one = true ->
  int_of_spec_float x = Ok 0.
Proof.
  intros Hv Hs Hlt.
  destruct x as [s|s| |s m e]; cbn [not_negative int_of_spec_float] in *.
  - reflexivity.
  - subst s. cbn in Hlt. discriminate Hlt.
  - cbn in Hlt. discriminate Hlt.
  - subst s. pose proof (valid_mantissa_bound _ _ _ Hv) as Hm.
    cbn [cond_Zopp]. f_equal. unfold SFltb, SFcompare, SF_one in Hlt.
    destruct (Z.compare_spec e (-52)) as [He|He|He].
    + subst e. rewrite Pos.compare_cont_spec in Hlt.
      destruct (Pos.compare_spec m 4503599627370496) as [Hc|Hc|Hc];
        try discriminate Hlt.
      apply (shiftl_neg_small m 52). exact (Pos2Z.pos_lt_pos _ _ Hc).
    + destruct e as [|k|k]; try (exfalso; lia).
      apply shiftl_neg_small.
      eapply Z.lt_le_trans; [exact Hm|]. apply Z.pow_le_mono_r; lia.
    + discriminate Hlt.
Qed.

(** What is finite, not negative and not below one has one. *)
Lemma int_from_one (x : spec_float) (n : Z) :
  valid_binary x = true -> not_negative x -> SFltb x SF_one = false ->
  int_of_spec_float x = Ok n -> 1 <= n.
Proof.
  intros Hv Hs Hlt Hint.
  destruct x as [s|s| |s m e]; cbn [not_negative int_of_spec_float] in *;
    try discriminate Hint.
  - cbn in Hlt. discriminate Hlt.
  - subst s. injection Hint as <-. cbn [cond_Zopp].
    unfold SFltb, SFcompare, SF_one in Hlt.
    destruct (Z.compare_spec e (-52)) as [He|He|He].
    + subst e. rewrite Pos.compare_cont_spec in Hlt.
      destruct (Pos.compare_spec m 4503599627370496) as [Hc|Hc|Hc];
        try discriminate Hlt.
      * subst m. reflexivity.
      * apply (shiftl_neg_large m 52). apply Z.lt_le_incl.
        exact (Pos2Z.pos_lt_pos _ _ Hc).
    + discriminate Hlt.
    + destruct e as [|k|k].
      * cbn. lia.
      * rewrite Z.shiftl_mul_pow2 by lia.
        pose proof (pow2_pos (Zpos k) ltac:(lia)). nia.
      * apply shiftl_neg_large.
        assert (Hn : SpecFloat.emin prec emax < Zneg k)
          by (unfold SpecFloat.emin, prec, emax; lia).
        pose proof (valid_normal_mantissa _ _ _ Hv Hn) as Hm.
        eapply Z.le_trans; [|exact Hm]. apply Z.pow_le_mono_r; lia.
Qed.

Lemma positive_float_not_zero (x : float) :
  (0 <? x)%float = true -> PrimFloat.is_zero x = false.
Proof.
  intros Hx. destruct (PrimFloat.is_zero x) eqn:Hz; [|reflexivity].
  apply is_zero_iff in Hz. destruct Hz as [s Hz].
  destruct (positive_float_inv x Hx) as [(m & e & Hf)|Hi]; congruence.
Qed.

(** X8. For positive arguments the count is zero exactly when the quotient, as a
    float, is below one: then it is zero, and otherwise a count, when there
    is one, is at least one. *)
Theorem count_is_zero_below_one_quotient (max_force force_conversion_factor : float) :
  (0 <? max_force)%float = true ->
  (0 <? force_conversion_factor)%float = true ->
  let quotient := (max_force / (force_conversion_factor * 17.66))%float in
  ((quotient <? 1)%float = true ->
   StandardMuscle.derive_motor_unit_count max_force force_conversion_factor = Ok 0)
  /\ ((quotient <? 1)%float = false ->
      forall n,
        StandardMuscle.derive_motor_unit_count max_force force_conversion_factor = Ok n ->
        1 <= n).
Proof.
  intros Hm Hf quotient.
  pose proof (quotient_not_negative _ _ Hm Hf) as Hsign. fold quotient in Hsign.
  pose proof (Prim2SF_valid quotient) as Hv.
  rewrite derive_unfold, (positive_float_not_zero _ Hf). fold quotient.
  rewrite ltb_spec, Prim2SF_one. unfold py_int. split.
  - intros Hlt. now apply int_below_one.
  - intros Hge n Hn. now apply (int_from_one (Prim2SF quotient)).
Qed.

Lemma binary_round_aux_opp (s : bool) (m e : Z) (l : location) :
  binary_round_aux prec emax (negb s) m e l
  = SFopp (binary_round_aux prec emax s m e l).
Proof.
  unfold binary_round_aux.
  destruct (shr_fexp prec emax m e l) as [mrs' e'].
  destruct (shr_fexp prec emax _ e' loc_Exact) as [mrs'' e''].
  destruct (shr_m mrs'') as [|p|p]; [reflexivity| |reflexivity].
  destruct (e'' <=? emax - prec); reflexivity.
Qed.

Lemma SFdiv_opp_l (x y : spec_float) :
  SF64div (SFopp x) y = SFopp (SF64div x y).
Proof.
  unfold SF64div.
  destruct x as [sx|sx| |sx mx ex], y as [sy|sy| |sy my ey];
    cbn [SFdiv SFopp]; rewrite <- ?negb_xorb_l; try reflexivity.
  destruct (SFdiv_core_binary prec emax (Zpos mx) ex (Zpos my) ey) as [[mz ez] lz].
  apply binary_round_aux_opp.
Qed.

Lemma SFdiv_opp_r (x y : spec_float) :
  SF64div x (SFopp y) = SFopp (SF64div x y).
Proof.
  unfold SF64div.
  destruct x as [sx|sx| |sx mx ex], y as [sy|sy| |sy my ey];
    cbn [SFdiv SFopp]; rewrite <- ?negb_xorb_r; try reflexivity.
  destruct (SFdiv_core_binary prec emax (Zpos mx) ex (Zpos my) ey) as [[mz ez] lz].
  apply binary_round_aux_opp.
Qed.

Lemma SFmul_opp_l (x y : spec_float) :
  SF64mul (SFopp x) y = SFopp (SF64mul x y).
Proof.
  unfold SF64mul.
  destruct x as [sx|sx| |sx mx ex], y as [sy|sy| |sy my ey];
    cbn [SFmul SFopp]; rewrite <- ?negb_xorb_l; try reflexivity.
  apply binary_round_aux_opp.
Qed.

Lemma int_of_spec_float_opp (x : spec_float) :
  int_of_spec_float (SFopp x) = negated (int_of_spec_float x).
Proof.
  destruct x as [s|s| |s m e]; cbn [SFopp int_of_spec_float negated]; try reflexivity.
  f_equal. destruct s; cbn [negb cond_Zopp]; lia.
Qed.

Lemma is_zero_opp (x : float) : PrimFloat.is_zero (- x) = PrimFloat.is_zero x.
Proof.
  destruct (PrimFloat.is_zero x) eqn:Hx.
  - apply is_zero_iff in Hx. destruct Hx as [s Hx]. apply is_zero_iff.
    exists (negb s). now rewrite opp_spec, Hx.
  - destruct (PrimFloat.is_zero (- x)) eqn:Hn; [|reflexivity].
    apply is_zero_iff in Hn. destruct Hn as [s Hn]. rewrite opp_spec in Hn.
    assert (Hz : PrimFloat.is_zero x = true).
    { apply is_zero_iff. destruct (Prim2SF x) as [s'|s'| |s' m e];
        try discriminate Hn. now exists s'. }
    congruence.
Qed.

(** X9. Changing the sign of either argument changes the sign of the count and
    nothing else: the same exception is raised where one is raised. *)
Theorem derive_motor_unit_count_odd (max_force force_conversion_factor : float) :
  StandardMuscle.derive_motor_unit_count (- max_force) force_conversion_factor
  = negated (StandardMuscle.derive_motor_unit_count max_force force_conversion_factor)
  /\ StandardMuscle.derive_motor_unit_count max_force (- force_conversion_factor)
     = negated (StandardMuscle.derive_motor_unit_count max_force force_conversion_factor).
Proof.
  rewrite !derive_unfold, is_zero_opp.
  destruct (PrimFloat.is_zero force_conversion_factor); [now split|].
  unfold py_int. split.
  - rewrite !div_spec, opp_spec, SFdiv_opp_l. apply int_of_spec_float_opp.
  - rewrite !div_spec, !mul_spec, opp_spec, SFmul_opp_l, SFdiv_opp_r.
    apply int_of_spec_float_opp.
Qed.

Lemma Zdigits2_upper (m : Z) : 0 <= m -> m < 2 ^ Zdigits2 m.
Proof.
  intros Hm. destruct m as [|p|p]; [reflexivity| |exfalso; lia].
  apply Zdigits2_bounds.
Qed.

Lemma Zdigits2_le (m k : Z) : 0 <= m -> 0 <= k -> m < 2 ^ k -> Zdigits2 m <= k.
Proof.
  intros Hm Hk Hlt. destruct m as [|p|p]; [exact Hk| |exfalso; lia].
  pose proof (Zdigits2_bounds p) as [Hlo _].
  assert (Hd : 1 <= Zdigits2 (Zpos p)) by (cbn; lia).
  assert (Hp : 2 ^ (Zdigits2 (Zpos p) - 1) < 2 ^ k) by lia.
  apply Z.pow_lt_mono_r_iff in Hp; lia.
Qed.

Lemma shr_fexp_spec (m e : Z) (l : location) :
  0 <= m ->
  let n := Z.max 0 (fexp prec emax (Zdigits2 m + e) - e) in
  snd (shr_fexp prec emax m e l) = e + n
  /\ shr_m (fst (shr_fexp prec emax m e l)) = m / 2 ^ n.
Proof.
  intros Hm n. subst n. unfold shr_fexp, shr.
  destruct (fexp prec emax (Zdigits2 m + e) - e) as [|p|p]; cbn [fst snd].
  - rewrite shr_record_of_loc_m. change (Z.max 0 0) with 0.
    rewrite Z.add_0_r, Z.pow_0_r, Z.div_1_r. now split.
  - rewrite iter_shr_1_div by (rewrite shr_record_of_loc_m; exact Hm).
    rewrite shr_record_of_loc_m.
    replace (Z.max 0 (Zpos p)) with (Zpos p) by lia. now split.
  - rewrite shr_record_of_loc_m.
    replace (Z.max 0 (Zneg p)) with 0 by lia.
    rewrite Z.add_0_r, Z.pow_0_r, Z.div_1_r. now split.
Qed.

Lemma shr_1_exact (m : Z) :
  0 <= m ->
  shr_1 {| shr_m := 2 * m; shr_r := false; shr_s := false |}
  = {| shr_m := m; shr_r := false; shr_s := false |}.
Proof.
  intros Hm. destruct m as [|p|p]; [reflexivity|reflexivity|exfalso; lia].
Qed.

Lemma iter_shr_1_exact (p : positive) : forall m,
  0 <= m ->
  iter_pos shr_1 p {| shr_m := m * 2 ^ Zpos p; shr_r := false; shr_s := false |}
  = {| shr_m := m; shr_r := false; shr_s := false |}.
Proof.
  induction p as [p IH|p IH|]; intros m Hm; cbn [iter_pos].
  - pose proof (pow2_pos (Zpos p) ltac:(lia)) as Hp.
    replace (m * 2 ^ Zpos p~1) with (2 * ((m * 2 ^ Zpos p) * 2 ^ Zpos p)).
    2:{ replace (Zpos p~1) with (1 + Zpos p + Zpos p) by lia.
        rewrite !Z.pow_add_r by lia. rewrite Z.pow_1_r. ring. }
    rewrite shr_1_exact by nia. rewrite IH by nia. now apply IH.
  - pose proof (pow2_pos (Zpos p) ltac:(lia)) as Hp.
    replace (m * 2 ^ Zpos p~0) with ((m * 2 ^ Zpos p) * 2 ^ Zpos p).
    2:{ replace (Zpos p~0) with (Zpos p + Zpos p) by lia.
        rewrite !Z.pow_add_r by lia. ring. }
    rewrite IH by nia. now apply IH.
  - rewrite Z.pow_1_r, Z.mul_comm. now apply shr_1_exact.
Qed.

Lemma shr_fexp_exact (m e : Z) :
  let n := Z.max 0 (fexp prec emax (Zdigits2 m + e) - e) in
  forall m1, 0 <= m1 -> m = m1 * 2 ^ n ->
  loc_of_shr_record (fst (shr_fexp prec emax m e loc_Exact)) = loc_Exact.
Proof.
  intros n m1 Hm1 Hm. subst n. unfold shr_fexp, shr.
  destruct (fexp prec emax (Zdigits2 m + e) - e) as [|p|p]; cbn [fst];
    try reflexivity.
  replace (Z.max 0 (Zpos p)) with (Zpos p) in Hm by lia.
  cbn [shr_record_of_loc]. rewrite Hm. rewrite iter_shr_1_exact by exact Hm1.
  reflexivity.
Qed.

(** One positive float below another, in integers: with the exponents
    aligned the mantissa is smaller, and by a 53-bit margin. *)
Lemma SFltb_aligned (mx my : positive) (ex ey : Z) :
  valid_binary (S754_finite false mx ex) = true ->
  valid_binary (S754_finite false my ey) = true ->
  SFltb (S754_finite false mx ex) (S754_finite false my ey) = true ->
  ex <= ey
  /\ Zpos mx < Zpos my * 2 ^ (ey - ex)
  /\ 2 ^ 53 * Zpos mx <= (2 ^ 53 - 1) * (Zpos my * 2 ^ (ey - ex)).
Proof.
  intros Hvx Hvy Hlt. unfold SFltb, SFcompare in Hlt.
  pose proof (valid_mantissa_bound _ _ _ Hvx) as Hmx.
  pose proof (valid_mantissa_bound _ _ _ Hvy) as Hmy.
  destruct (Z.compare_spec ex ey) as [He|He|He]; try discriminate Hlt.
  - subst ey. rewrite Pos.compare_cont_spec in Hlt.
    destruct (Pos.compare_spec mx my) as [Hc|Hc|Hc]; try discriminate Hlt.
    apply Pos2Z.pos_lt_pos in Hc.
    rewrite Z.sub_diag, Z.pow_0_r, Z.mul_1_r. repeat split; lia.
  - pose proof (valid_exponent_ge_emin _ _ _ Hvx) as Hex.
    assert (Hn : SpecFloat.emin prec emax < ey) by lia.
    pose proof (valid_normal_mantissa _ _ _ Hvy Hn) as Hmy52.
    assert (Hp : 2 <= 2 ^ (ey - ex)).
    { change 2 with (2 ^ 1) at 1. apply Z.pow_le_mono_r; lia. }
    assert (HT : 2 ^ 53 <= Zpos my * 2 ^ (ey - ex)).
    { change (2 ^ 53) with (2 ^ 52 * 2). apply Z.mul_le_mono_nonneg; lia. }
    repeat split; lia.
Qed.

(** The integer quotient the division rounds: [q * 2^e'] is the quotient of
    the two floats with the fraction dropped, and a remainder of zero is
    reported as exact. *)
Lemma SFdiv_core_spec (mx my : positive) (ex ey : Z) :
  ex <= ey ->
  Zpos mx < Zpos my * 2 ^ (ey - ex) ->
  let '(q, e', lz) := SFdiv_core_binary prec emax (Zpos mx) ex (Zpos my) ey in
  let s := ex - ey - e' in
  e' <= -53 /\ 0 <= s /\ 0 <= q
  /\ q * Zpos my <= Zpos mx * 2 ^ s
  /\ q < 2 ^ (- e')
  /\ (q * Zpos my = Zpos mx * 2 ^ s -> lz = loc_Exact).
Proof.
  intros Hexp Hlt. unfold SFdiv_core_binary.
  set (d1 := Zdigits2 (Zpos mx)). set (d2 := Zdigits2 (Zpos my)).
  set (e' := Z.min (fexp prec emax (d1 + ex - (d2 + ey))) (ex - ey)).
  set (s := ex - ey - e').
  assert (Hs : 0 <= s) by (subst s e'; lia).
  assert (Hd : d1 + ex <= d2 + ey).
  { pose proof (Zdigits2_bounds mx) as [Hlo _].
    pose proof (Zdigits2_bounds my) as [_ Hhi]. fold d1 in Hlo. fold d2 in Hhi.
    assert (Hd1 : 1 <= d1) by (subst d1; cbn; lia).
    assert (Hd2 : 1 <= d2) by (subst d2; cbn; lia).
    assert (Hp : 2 ^ (d1 - 1) < 2 ^ (d2 + (ey - ex))).
    { eapply Z.le_lt_trans; [exact Hlo|]. eapply Z.lt_le_trans; [exact Hlt|].
      rewrite Z.pow_add_r by lia. apply Z.mul_le_mono_nonneg_r; [|lia].
      apply Z.pow_nonneg. lia. }
    apply Z.pow_lt_mono_r_iff in Hp; lia. }
  assert (He' : e' <= -53).
  { subst e'. unfold fexp, SpecFloat.emin, prec, emax. lia. }
  assert (Hm' : match s with
                | Z0 => Zpos mx
                | Zpos _ => Z.shiftl (Zpos mx) s
                | Zneg _ => 0
                end = Zpos mx * 2 ^ s).
  { destruct s as [|p|p] eqn:Hsp.
    - rewrite Z.pow_0_r. lia.
    - apply Z.shiftl_mul_pow2. lia.
    - exfalso. lia. }
  rewrite Hm'.
  pose proof (Z_div_mod (Zpos mx * 2 ^ s) (Zpos my) ltac:(lia)) as Hdm.
  destruct (Z.div_eucl (Zpos mx * 2 ^ s) (Zpos my)) as [q r].
  destruct Hdm as [Hq Hr]. fold s.
  pose proof (pow2_pos s Hs) as Hps.
  assert (Hq0 : 0 <= q) by nia.
  assert (Hpow : 2 ^ (- e') = 2 ^ (ey - ex) * 2 ^ s).
  { rewrite <- Z.pow_add_r by lia. f_equal. subst s. lia. }
  repeat split; try assumption.
  - nia.
  - rewrite Hpow.
    assert (Hlt' : Zpos mx * 2 ^ s < Zpos my * 2 ^ (ey - ex) * 2 ^ s)
      by (apply Z.mul_lt_mono_pos_r; assumption).
    nia.
  - intros Hexact. assert (r = 0) by lia. subst r.
    unfold new_location, new_location_even, new_location_odd.
    destruct (Z.even (Zpos my)); reflexivity.
Qed.

Lemma round_nearest_even_le (m : Z) (l : location) : round_nearest_even m l <= m + 1.
Proof.
  destruct l as [|[| |]]; cbn [round_nearest_even]; try lia.
  destruct (Z.even m); lia.
Qed.

Lemma pow2_split (a b : Z) : 0 <= a -> 0 <= b -> 2 ^ (a + b) = 2 ^ a * 2 ^ b.
Proof. intros Ha Hb. now apply Z.pow_add_r. Qed.

(** Rounding a quotient below one, given as [q * 2^e'] and a location, to a
    float whose integral part is zero.  The one case where rounding up would
    reach one is the mantissa of 53 ones at exponent -53, and there the
    quotient has to be known exact. *)
Lemma round_below_one (q e' : Z) (lz : location) :
  0 <= q -> e' <= -53 -> q < 2 ^ (- e') ->
  (forall n, 0 <= n -> e' + n = -53 -> q / 2 ^ n = 2 ^ 53 - 1 ->
             lz = loc_Exact /\ q = (2 ^ 53 - 1) * 2 ^ n) ->
  int_of_spec_float (binary_round_aux prec emax false q e' lz) = Ok 0.
Proof.
  intros Hq He' Hlt Hcrit. unfold binary_round_aux.
  pose proof (shr_fexp_spec q e' lz Hq) as [He1 Hm1].
  pose proof (Zdigits2_le q (- e') Hq ltac:(lia) Hlt) as Hdq.
  pose proof (Zdigits2_upper q Hq) as Hqd.
  set (n := Z.max 0 (fexp prec emax (Zdigits2 q + e') - e')) in *.
  assert (Hn : 0 <= n) by (subst n; lia).
  assert (Hn53 : Zdigits2 q <= n + 53)
    by (subst n; unfold fexp, SpecFloat.emin, prec, emax; lia).
  assert (Hne : e' + n <= -53)
    by (subst n; unfold fexp, SpecFloat.emin, prec, emax; lia).
  pose proof (pow2_pos n Hn) as Hpn.
  assert (Hexact : q / 2 ^ n = 2 ^ 53 - 1 -> e' + n = -53 ->
            loc_of_shr_record (fst (shr_fexp prec emax q e' lz)) = loc_Exact).
  { intros Hm He. destruct (Hcrit n Hn He Hm) as [-> Hqe].
    apply (shr_fexp_exact q e' (2 ^ 53 - 1)); [lia|exact Hqe]. }
  destruct (shr_fexp prec emax q e' lz) as [mrs1 e1]. cbn [fst snd] in *.
  set (m1 := shr_m mrs1) in *.
  assert (Hm1nn : 0 <= m1) by (rewrite Hm1; apply Z.div_pos; lia).
  assert (Hm153 : m1 < 2 ^ 53).
  { rewrite Hm1. apply Z.div_lt_upper_bound; [exact Hpn|].
    rewrite <- pow2_split by lia. eapply Z.lt_le_trans; [exact Hqd|].
    apply Z.pow_le_mono_r; lia. }
  assert (Hm1e : m1 < 2 ^ (- e1)).
  { rewrite Hm1. apply Z.div_lt_upper_bound; [exact Hpn|].
    rewrite <- pow2_split by lia. replace (n + - e1) with (- e') by lia. exact Hlt. }
  pose proof (round_nearest_even_ge m1 (loc_of_shr_record mrs1)) as Hrge.
  pose proof (round_nearest_even_le m1 (loc_of_shr_record mrs1)) as Hrle.
  assert (Hr : round_nearest_even m1 (loc_of_shr_record mrs1) < 2 ^ (- e1)).
  { destruct (Z.eq_dec e1 (-53)) as [He53|He53].
    - rewrite He53 in *. change (- -53) with 53 in *.
      destruct (Z.eq_dec m1 (2 ^ 53 - 1)) as [Hmax|Hmax]; [|lia].
      rewrite Hexact by (try rewrite <- Hm1; lia). cbn [round_nearest_even]. lia.
    - assert (Hp : 2 ^ 54 <= 2 ^ (- e1)) by (apply Z.pow_le_mono_r; lia).
      change (2 ^ 54) with (2 * 2 ^ 53) in Hp. lia. }
  set (mr := round_nearest_even m1 (loc_of_shr_record mrs1)) in *.
  assert (Hmr : 0 <= mr) by lia.
  pose proof (shr_fexp_spec mr e1 loc_Exact Hmr) as [He2 Hm2].
  set (n2 := Z.max 0 (fexp prec emax (Zdigits2 mr + e1) - e1)) in *.
  assert (Hn2 : 0 <= n2) by (subst n2; lia).
  pose proof (pow2_pos n2 Hn2) as Hpn2.
  destruct (shr_fexp prec emax mr e1 loc_Exact) as [mrs2 e2]. cbn [fst snd] in *.
  assert (Hm2nn : 0 <= shr_m mrs2) by (rewrite Hm2; apply Z.div_pos; lia).
  destruct (shr_m mrs2) as [|m2|m2] eqn:Hsm; [reflexivity| |exfalso; lia].
  assert (He2neg : e2 < 0).
  { destruct (Z.lt_ge_cases e2 0) as [Hneg|Hpos]; [exact Hneg|exfalso].
    assert (Hsmall : mr / 2 ^ n2 = 0).
    { apply Z.div_small. split; [exact Hmr|].
      eapply Z.lt_le_trans; [exact Hr|]. apply Z.pow_le_mono_r; lia. }
    lia. }
  assert (Hfin : (e2 <=? emax - prec) = true)
    by (apply Z.leb_le; unfold emax, prec; lia).
  rewrite Hfin. cbn [int_of_spec_float cond_Zopp]. f_equal.
  destruct e2 as [|k|k]; try (exfalso; lia).
  apply shiftl_neg_small. rewrite Hm2.
  apply Z.div_lt_upper_bound; [exact Hpn2|].
  rewrite <- pow2_split by lia.
  replace (n2 + Zpos k) with (- e1) by lia. exact Hr.
Qed.

(** A positive float divided by a larger one has no integral part. *)
Lemma SFdiv_below_one (mx my : positive) (ex ey : Z) :
  valid_binary (S754_finite false mx ex) = true ->
  valid_binary (S754_finite false my ey) = true ->
  SFltb (S754_finite false mx ex) (S754_finite false my ey) = true ->
  int_of_spec_float (SF64div (S754_finite false mx ex) (S754_finite false my ey)) = Ok 0.
Proof.
  intros Hvx Hvy Hlt.
  destruct (SFltb_aligned mx my ex ey Hvx Hvy Hlt) as (Hexp & Hxy & Hmargin).
  pose proof (SFdiv_core_spec mx my ex ey Hexp Hxy) as Hcore.
  unfold SF64div, SFdiv. cbn [xorb].
  destruct (SFdiv_core_binary prec emax (Zpos mx) ex (Zpos my) ey) as [[q e'] lz].
  destruct Hcore as (He' & Hs & Hq & Hqy & Hqlt & Hexact).
  apply round_below_one; try assumption.
  intros n Hn Hen Hm1.
  pose proof (pow2_pos n Hn) as Hpn.
  pose proof (pow2_pos (ex - ey - e') Hs) as Hps.
  pose proof (pow2_pos (ey - ex) ltac:(lia)) as Hpe.
  assert (Hfloor : (2 ^ 53 - 1) * 2 ^ n <= q).
  { rewrite <- Hm1. rewrite Z.mul_comm. apply Z.mul_div_le. exact Hpn. }
  assert (Hpow : 2 ^ (ey - ex) * 2 ^ (ex - ey - e') = 2 ^ 53 * 2 ^ n).
  { rewrite <- !pow2_split by lia. f_equal. lia. }
  set (A := Zpos mx * 2 ^ (ex - ey - e')) in *.
  assert (Hup : 2 ^ 53 * A <= 2 ^ 53 * ((2 ^ 53 - 1) * 2 ^ n * Zpos my)).
  { subst A.
    replace (2 ^ 53 * ((2 ^ 53 - 1) * 2 ^ n * Zpos my))
      with ((2 ^ 53 - 1) * (Zpos my * 2 ^ (ey - ex)) * 2 ^ (ex - ey - e')).
    2:{ rewrite <- !Z.mul_assoc. rewrite Hpow. ring. }
    rewrite Z.mul_assoc. apply Z.mul_le_mono_nonneg_r; [lia|exact Hmargin]. }
  assert (HA : A <= (2 ^ 53 - 1) * 2 ^ n * Zpos my) by lia.
  assert (Hlow : (2 ^ 53 - 1) * 2 ^ n * Zpos my <= q * Zpos my)
    by (apply Z.mul_le_mono_nonneg_r; lia).
  assert (HqA : q * Zpos my = A) by lia.
  split; [now apply Hexact|].
  assert (Heq : q * Zpos my = (2 ^ 53 - 1) * 2 ^ n * Zpos my) by lia.
  apply Z.mul_cancel_r in Heq; lia.
Qed.

(** X10. Every positive [max_force] below [force_conversion_factor * 17.66], both
    as Python computes them, gives a count of zero, and no exception: the
    rounded quotient of two such floats never reaches one. *)
Theorem force_below_divisor_gives_no_unit (max_force force_conversion_factor : float) :
  (0 <? max_force)%float = true ->
  (max_force <? force_conversion_factor * 17.66)%float = true ->
  StandardMuscle.derive_motor_unit_count max_force force_conversion_factor = Ok 0.
Proof.
  intros Hpos Hlt.
  unfold StandardMuscle.derive_motor_unit_count, float_truediv.
  set (divisor := (force_conversion_factor * 17.66)%float) in *.
  pose proof (Prim2SF_valid max_force) as Hvx.
  pose proof (Prim2SF_valid divisor) as Hvy.
  rewrite ltb_spec in Hlt.
  assert (Hint : int_of_spec_float (SF64div (Prim2SF max_force) (Prim2SF divisor)) = Ok 0
                 /\ forall s, Prim2SF divisor <> S754_zero s).
  { destruct (positive_float_inv max_force Hpos) as [(mx & ex & Hx)|Hx];
      rewrite Hx in *.
    - destruct (Prim2SF divisor) as [sy|sy| |sy my ey].
      + cbn in Hlt. discriminate Hlt.
      + destruct sy; [cbn in Hlt; discriminate Hlt|].
        split; [reflexivity|]. intros s Hz. discriminate Hz.
      + cbn in Hlt. discriminate Hlt.
      + destruct sy; [cbn in Hlt; discriminate Hlt|].
        split; [now apply SFdiv_below_one|]. intros s Hz. discriminate Hz.
    - exfalso. destruct (Prim2SF divisor) as [sy|sy| |sy my ey];
        try (cbn in Hlt; discriminate Hlt).
      destruct sy; cbn in Hlt; discriminate Hlt. }
  destruct Hint as [Hint Hnz].
  destruct (PrimFloat.is_zero divisor) eqn:Hz.
  - apply is_zero_iff in Hz. destruct Hz as [s Hz]. now destruct (Hnz s).
  - cbn [result_bind]. unfold py_int. now rewrite div_spec.
Qed.

Lemma binary_round_aux_not_nan (s : bool) (m e : Z) (l : location) :
  0 <= m -> binary_round_aux prec emax s m e l <> S754_nan.
Proof.
  intros Hm. unfold binary_round_aux.
  pose proof (shr_fexp_spec m e l Hm) as [_ Hm1].
  destruct (shr_fexp prec emax m e l) as [mrs1 e1]. cbn [fst] in Hm1.
  assert (Hm1nn : 0 <= shr_m mrs1).
  { rewrite Hm1. apply Z.div_pos; [exact Hm|]. apply pow2_pos. lia. }
  pose proof (round_nearest_even_ge (shr_m mrs1) (loc_of_shr_record mrs1)) as Hr.
  set (mr := round_nearest_even (shr_m mrs1) (loc_of_shr_record mrs1)) in *.
  pose proof (shr_fexp_spec mr e1 loc_Exact ltac:(lia)) as [_ Hm2].
  destruct (shr_fexp prec emax mr e1 loc_Exact) as [mrs2 e2]. cbn [fst] in Hm2.
  assert (Hm2nn : 0 <= shr_m mrs2).
  { rewrite Hm2. apply Z.div_pos; [lia|]. apply pow2_pos. lia. }
  destruct (shr_m mrs2) as [|m2|m2]; [| |exfalso; lia].
  - intros Hd. discriminate Hd.
  - destruct (e2 <=? emax - prec); intros Hd; discriminate Hd.
Qed.

Lemma SFdiv_core_nonneg (mx my : positive) (ex ey : Z) :
  0 <= fst (fst (SFdiv_core_binary prec emax (Zpos mx) ex (Zpos my) ey)).
Proof.
  unfold SFdiv_core_binary.
  set (s := ex - ey - _).
  set (m' := match s with
             | Z0 => Zpos mx
             | Zpos _ => Z.shiftl (Zpos mx) s
             | Zneg _ => 0
             end).
  assert (Hm' : 0 <= m').
  { subst m'. destruct s as [|p|p]; try lia. apply Z.shiftl_nonneg. lia. }
  pose proof (Z_div_mod m' (Zpos my) ltac:(lia)) as Hdm.
  destruct (Z.div_eucl m' (Zpos my)) as [q r]. cbn [fst].
  destruct Hdm as [Hq Hr]. nia.
Qed.

Lemma positive_finite_float_inv (x : float) :
  (0 <? x)%float = true -> (x <? infinity)%float = true ->
  exists m e, Prim2SF x = S754_finite false m e.
Proof.
  intros Hpos Hfin. destruct (positive_float_inv x Hpos) as [Hx|Hx]; [exact Hx|].
  rewrite ltb_spec, Hx in Hfin. cbn in Hfin. discriminate Hfin.
Qed.

(** X11. With positive finite arguments the derivation returns a count, which is
    not negative, or raises [OverflowError]; it raises neither
    [ZeroDivisionError] nor [ValueError]. *)
Theorem positive_finite_arguments_overflow_only
    (max_force force_conversion_factor : float) :
  (0 <? max_force)%float = true -> (max_force <? infinity)%float = true ->
  (0 <? force_conversion_factor)%float = true ->
  (force_conversion_factor <? infinity)%float = true ->
  StandardMuscle.derive_motor_unit_count max_force force_conversion_factor
    = Raise OverflowError
  \/ exists n, 0 <= n
       /\ StandardMuscle.derive_motor_unit_count max_force force_conversion_factor = Ok n.
Proof.
  intros Hm Hmf Hf Hff.
  pose proof (quotient_not_negative _ _ Hm Hf) as Hsign.
  rewrite derive_unfold, (positive_float_not_zero _ Hf). unfold py_int.
  destruct (positive_finite_float_inv _ Hm Hmf) as (mx & ex & Hx).
  destruct (positive_finite_float_inv _ Hf Hff) as (my & ey & Hy).
  assert (Hnan : Prim2SF (max_force / (force_conversion_factor * 17.66)) <> S754_nan).
  { rewrite div_spec, mul_spec, Hx, Hy, Prim2SF_17_66.
    unfold SF64mul, SFmul, seventeen_66. cbn [xorb].
    pose proof (binary_round_aux_not_nan false
                  (Zpos (my * 4970848088710185)) (ey + -48) loc_Exact ltac:(lia)) as Hd.
    pose proof (binary_round_aux_sign prec emax false
                  (Zpos (my * 4970848088710185)) (ey + -48) loc_Exact) as Hds.
    destruct (binary_round_aux prec emax false
                (Zpos (my * 4970848088710185)) (ey + -48) loc_Exact)
      as [sd|sd| |sd md ed]; try (now destruct Hd); unfold SF64div, SFdiv;
      try (intros Hq; discriminate Hq).
    pose proof (SFdiv_core_nonneg mx md ex ed) as Hq.
    destruct (SFdiv_core_binary prec emax (Zpos mx) ex (Zpos md) ed) as [[q e'] lz].
    now apply binary_round_aux_not_nan. }
  destruct (Prim2SF (max_force / (force_conversion_factor * 17.66)))
    as [s|s| |s m e]; cbn [int_of_spec_float not_negative] in *.
  - right. exists 0. now split.
  - now left.
  - now destruct Hnan.
  - right. subst s. cbn [cond_Zopp]. eexists. split; [|reflexivity].
    apply Z.shiftl_nonneg. lia.
Qed.

(** ** The derived count on particular arguments *)

Lemma nan_argument_gives_no_count_witness :
  StandardMuscle.derive_motor_unit_count nan 0.028 = Raise ValueError
  /\ StandardMuscle.derive_motor_unit_count 500 nan = Raise ValueError.
Proof.
  split.
  - exact (nan_argument_gives_no_count nan 0.028 (or_introl eq_refl)).
  - exact (nan_argument_gives_no_count 500 nan (or_intror eq_refl)).
Defined.

(** 0.4 newtons give a quotient below one and no unit; 500 newtons give a
    quotient above one and at least one unit. *)
Lemma count_is_zero_below_one_quotient_witness :
  StandardMuscle.derive_motor_unit_count 0.4 0.028 = Ok 0
  /\ 1 <= 1011.
Proof.
  split.
  - exact (proj1 (count_is_zero_below_one_quotient 0.4 0.028 eq_refl eq_refl) eq_refl).
  - exact (proj2 (count_is_zero_below_one_quotient 500 0.028 eq_refl eq_refl)
             eq_refl 1011 eq_refl).
Defined.

(** A quarter of a newton at a conversion factor of 0.05: the divisor is
    0.883. *)
Lemma force_below_divisor_gives_no_unit_witness :
  StandardMuscle.derive_motor_unit_count 0.25 0.05 = Ok 0.
Proof.
  exact (force_below_divisor_gives_no_unit 0.25 0.05 eq_refl eq_refl).
Defined.

Lemma positive_finite_arguments_overflow_only_witness :
  StandardMuscle.derive_motor_unit_count 60 0.028 = Raise OverflowError
  \/ exists n, 0 <= n /\ StandardMuscle.derive_motor_unit_count 60 0.028 = Ok n.
Proof.
  exact (positive_finite_arguments_overflow_only 60 0.028
           eq_refl eq_refl eq_refl eq_refl).
Defined.

(** The largest float over the smallest positive one: the quotient is
    infinite and the derivation raises [OverflowError]. *)
Lemma derive_motor_unit_count_overflow :
  StandardMuscle.derive_motor_unit_count 0x1.fffffffffffffp+1023 0x1p-1074
  = Raise OverflowError.
Proof. reflexivity. Qed.

(** * Stepping a muscle made by the force-oriented preset *)

Lemma derive_motor_unit_count_nonneg (max_force force_conversion_factor : float) (n : Z) :
  (0 <? max_force)%float = true ->
  (0 <? force_conversion_factor)%float = true ->
  StandardMuscle.derive_motor_unit_count max_force force_conversion_factor = Ok n ->
  0 <= n.
Proof.
  intros Hm Hf. pose proof (quotient_not_negative _ _ Hm Hf) as Hsign.
  rewrite derive_unfold, (positive_float_not_zero _ Hf). unfold py_int.
  destruct (Prim2SF (max_force / (force_conversion_factor * 17.66)))
    as [s|s| |s m e]; cbn [int_of_spec_float not_negative] in *;
    intros Hn; try discriminate Hn; injection Hn as <-; [lia|].
  subst s. cbn [cond_Zopp]. apply Z.shiftl_nonneg. lia.
Qed.

Section StandardMuscleSteps.
Context {Pool Fibers : Type} `{Numpy.t} `{Model.t Pool} `{Model.fibers Fibers}.
Variable PotvinFuglevand2017MotorNeuronPool : Z -> bool -> bool -> result Pool.
Variable PyMuscleFibers : Z -> float -> bool -> result Fibers.
Hypothesis pool_honours_count : forall n fatigue pre_calc pool,
  PotvinFuglevand2017MotorNeuronPool n fatigue pre_calc = Ok pool ->
  Model.motor_unit_count pool = n.

(** X12. A [StandardMuscle] made from positive arguments, its pool reporting the
    count it was constructed with, never asks numpy for a vector of negative
    length.  Stepped with a scalar, it hands the pool a vector of as many
    copies as the derivation gave units whenever numpy builds that vector,
    which it does for a count within its index range that it has the
    memory for; otherwise the step raises numpy's exception. *)
Theorem StandardMuscle_steps_with_scalar
    (max_force force_conversion_factor : option float)
    (apply_central_fatigue apply_peripheral_fatigue pre_calc_firing_rates : option bool)
    (self : StandardMuscle.t Pool Fibers) :
  let newtons := or_default max_force 60.0%float in
  let factor := or_default force_conversion_factor 0.028%float in
  (0 <? newtons)%float = true ->
  (0 <? factor)%float = true ->
  StandardMuscle.__init__ PotvinFuglevand2017MotorNeuronPool PyMuscleFibers
    max_force force_conversion_factor
    apply_central_fatigue apply_peripheral_fatigue pre_calc_firing_rates = Ok self ->
  exists n,
    StandardMuscle.derive_motor_unit_count newtons factor = Ok n
    /\ 0 <= n
    /\ forall v step_size,
         Muscle.step (Scalar v) step_size (StandardMuscle.base self)
         = (if Numpy.NPY_MAX_INTP <? n * Numpy.itemsize v
            then (StandardMuscle.base self, Raise ValueError)
            else if Numpy.can_allocate (n * Numpy.itemsize v)
                 then pool_then_fibers (StandardMuscle.base self)
                        (NdArray (repeat v (Z.to_nat n))) step_size
                 else (StandardMuscle.base self, Raise MemoryError)).
Proof.
  intros newtons factor Hm Hf. unfold StandardMuscle.__init__.
  fold newtons. fold factor.
  destruct (StandardMuscle.derive_motor_unit_count newtons factor) as [n|e] eqn:Hd;
    cbn [result_bind]; [|intros Hinit; discriminate Hinit].
  destruct (PotvinFuglevand2017MotorNeuronPool n
              (or_default apply_central_fatigue false)
              (or_default pre_calc_firing_rates false)) as [pool|e] eqn:Hp;
    cbn [result_bind]; [|intros Hinit; discriminate Hinit].
  destruct (PyMuscleFibers n factor (or_default apply_peripheral_fatigue true))
    as [fibers|e]; cbn [result_bind]; [|intros Hinit; discriminate Hinit].
  destruct (Muscle.__init__ pool fibers) as [muscle|e] eqn:Hmuscle;
    cbn [result_bind]; intros Hinit; [|discriminate Hinit].
  injection Hinit as <-. cbn [StandardMuscle.base].
  destruct (init_inv _ _ _ Hmuscle) as [-> _].
  pose proof (pool_honours_count _ _ _ _ Hp) as Hcount.
  pose proof (derive_motor_unit_count_nonneg _ _ _ Hm Hf Hd) as Hn.
  exists n. split; [reflexivity|]. split; [exact Hn|].
  intros v step_size. rewrite step_expand, expand_scalar.
  cbn [Muscle._pool]. rewrite Hcount. unfold np_full.
  destruct (Z.ltb_spec n 0) as [Hneg|_]; [lia|].
  destruct (Numpy.NPY_MAX_INTP <? n * Numpy.itemsize v); [reflexivity|].
  destruct (Numpy.can_allocate (n * Numpy.itemsize v)); reflexivity.
Qed.
End StandardMuscleSteps.

(** One and a half newtons make three units; excitation 32.0 gives each a
    rate of 16.0 and the muscle a force of 48.0. *)
Lemma StandardMuscle_steps_with_scalar_witness :
  exists self,
    StandardMuscle.__init__ Stub.new_pool Stub.new_fibers
      (Some 1.5%float) None None None None = Ok self
    /\ snd (Muscle.step (Scalar (PyFloat 32.0)) (Scalar (PyFloat 0.02))
              (StandardMuscle.base self))
       = Ok (Scalar (PyFloat 48)).
Proof.
  eexists. split; [vm_compute; reflexivity|].
  match goal with
  | |- snd (Muscle.step _ _ (StandardMuscle.base ?self)) = _ =>
      assert (Hinit : StandardMuscle.__init__ Stub.new_pool Stub.new_fibers
                        (Some 1.5%float) None None None None = Ok self)
        by (vm_compute; reflexivity);
      destruct (StandardMuscle_steps_with_scalar Stub.new_pool Stub.new_fibers
                  stub_new_pool_honours_count (Some 1.5%float) None None None None
                  self eq_refl eq_refl Hinit)
        as (n & Hd & _ & Hstep)
  end.
  vm_compute in Hd. injection Hd as <-. rewrite Hstep. vm_compute. reflexivity.
Defined.

(** ** The count [StandardMuscle] constructs its models with *)

Section StandardMuscleCount.
Context {Pool Fibers : Type} `{Model.t Pool} `{Model.fibers Fibers}.
Variable PotvinFuglevand2017MotorNeuronPool : Z -> bool -> bool -> result Pool.
Variable PyMuscleFibers : Z -> float -> bool -> result Fibers.

(** C5, as the code has it.  For every [max_force] and
    [force_conversion_factor], given or left to their defaults, of any sign
    and with any two model constructors: [StandardMuscle.__init__] raises
    [ZeroDivisionError] for a zero factor; else, when the float quotient
    [max_force / (force_conversion_factor * 17.66)] is finite, it constructs
    the pool and the fibers with that number's integral part, the fraction
    dropped towards zero and nothing rounded, and composes them; else it
    raises [ValueError] for a NaN quotient and [OverflowError] for an
    infinite one.  The integral part is the floor when the quotient is not
    negative, as it is for positive arguments, and the ceiling when it is
    negative.  For 500 and 0.028 the models are constructed with the floor
    of [500 / (0.028 * 17.66)], taken over the decimal numbers. *)
Theorem StandardMuscle_count_truncates
    (max_force force_conversion_factor : option float)
    (apply_central_fatigue apply_peripheral_fatigue pre_calc_firing_rates : option bool) :
  let newtons := or_default max_force 60.0%float in
  let factor := or_default force_conversion_factor 0.028%float in
  let quotient := (newtons / (factor * 17.66))%float in
  StandardMuscle.__init__ PotvinFuglevand2017MotorNeuronPool PyMuscleFibers
    max_force force_conversion_factor
    apply_central_fatigue apply_peripheral_fatigue pre_calc_firing_rates
  = (if PrimFloat.is_zero factor then Raise ZeroDivisionError
     else match float_value quotient with
          | Some q =>
              let motor_unit_count := Qtruncate q in
              let* pool := PotvinFuglevand2017MotorNeuronPool motor_unit_count
                             (or_default apply_central_fatigue false)
                             (or_default pre_calc_firing_rates false) in
              let* fibers := PyMuscleFibers motor_unit_count factor
                               (or_default apply_peripheral_fatigue true) in
              let* muscle := Muscle.__init__ pool fibers in
              Ok {| StandardMuscle.max_force := newtons;
                    StandardMuscle.force_conversion_factor := factor;
                    StandardMuscle.base := muscle |}
          | None =>
              Raise (if PrimFloat.is_nan quotient then ValueError else OverflowError)
          end)
  /\ (forall q, float_value quotient = Some q ->
        ((0 <= q)%Q -> Qtruncate q = Qfloor q)
        /\ ((q < 0)%Q -> Qtruncate q = Qceiling q)
        /\ ((0 <? newtons)%float = true -> (0 <? factor)%float = true ->
            Qtruncate q = Qfloor q))
  /\ StandardMuscle.__init__ PotvinFuglevand2017MotorNeuronPool PyMuscleFibers
       (Some 500%float) (Some 0.028%float)
       apply_central_fatigue apply_peripheral_fatigue pre_calc_firing_rates
     = (let motor_unit_count := Qfloor (500 / ((28 # 1000) * (1766 # 100))) in
        let* pool := PotvinFuglevand2017MotorNeuronPool motor_unit_count
                       (or_default apply_central_fatigue false)
                       (or_default pre_calc_firing_rates false) in
        let* fibers := PyMuscleFibers motor_unit_count 0.028%float
                         (or_default apply_peripheral_fatigue true) in
        let* muscle := Muscle.__init__ pool fibers in
        Ok {| StandardMuscle.max_force := 500%float;
              StandardMuscle.force_conversion_factor := 0.028%float;
              StandardMuscle.base := muscle |}).
Proof.
  intros newtons factor quotient. split; [|split].
  - unfold StandardMuscle.__init__. fold newtons. fold factor.
    rewrite derive_unfold. fold quotient.
    destruct (PrimFloat.is_zero factor); [reflexivity|].
    unfold py_int, float_value.
    destruct (spec_float_value (Prim2SF quotient)) as [q|] eqn:Hv.
    + rewrite (int_of_spec_float_truncates _ _ Hv). reflexivity.
    + destruct (Prim2SF quotient) as [s|s| |s m e] eqn:Hq; try discriminate Hv;
        cbn [int_of_spec_float result_bind].
      * now rewrite (Prim2SF_infinity_not_nan _ _ Hq).
      * now rewrite (Prim2SF_nan_is_nan _ Hq).
  - intros q Hq. split; [|split].
    + intros Hpos. unfold Qtruncate.
      destruct (Qle_bool 0 q) eqn:Hle; [reflexivity|].
      apply Qle_bool_iff in Hpos. rewrite Hpos in Hle. discriminate Hle.
    + intros Hneg. unfold Qtruncate.
      destruct (Qle_bool 0 q) eqn:Hle; [|reflexivity].
      apply Qle_bool_iff in Hle. now apply Qlt_not_le in Hneg.
    + intros Hm Hf. unfold float_value in Hq.
      pose proof (quotient_not_negative _ _ Hm Hf) as Hsign. fold quotient in Hsign.
      pose proof (int_of_spec_float_floor _ _ Hsign Hq) as Hfloor.
      rewrite (int_of_spec_float_truncates _ _ Hq) in Hfloor.
      now injection Hfloor.
  - unfold StandardMuscle.__init__. cbn [or_default]. cbv zeta.
    assert (Hcount : StandardMuscle.derive_motor_unit_count 500 0.028 = Ok 1011)
      by (vm_compute; reflexivity).
    assert (Hfloor : Qfloor (500 / ((28 # 1000) * (1766 # 100))) = 1011)
      by (vm_compute; reflexivity).
    rewrite Hcount, Hfloor. reflexivity.
Qed.
End StandardMuscleCount.

(** Five hundred newtons at the default factor, with the stand-in models:
    the pool and the fibers have 1011 units each, the floor of the decimal
    quotient 1011.17... *)
Lemma StandardMuscle_count_truncates_witness :
  exists self,
    StandardMuscle.__init__ Stub.new_pool Stub.new_fibers
      (Some 500%float) (Some 0.028%float) None None None = Ok self
    /\ StandardMuscle.motor_unit_count self = 1011
    /\ Stub.fibers_count (Muscle._fibers (StandardMuscle.base self)) = 1011
    /\ Qfloor (500 / ((28 # 1000) * (1766 # 100))) = 1011.
Proof.
  destruct (StandardMuscle_count_truncates Stub.new_pool Stub.new_fibers
              (Some 500%float) (Some 0.028%float) None None None)
    as (_ & _ & Hinit).
  eexists. split; [rewrite Hinit; vm_compute; reflexivity|].
  vm_compute. repeat split.
Defined.

(** C5 as stated fails below zero: for a [max_force] of -1.0 at the default
    factor the float quotient is -2.02..., its floor is -3, over the floats
    as over the decimal numbers, and the models are constructed with -2
    units. *)
Lemma StandardMuscle_count_is_not_the_floor :
  StandardMuscle.derive_motor_unit_count (-1) 0.028 = Ok (-2)
  /\ match StandardMuscle.__init__ Stub.new_pool Stub.new_fibers
             (Some (-1)%float) (Some 0.028%float) None None None with
     | Ok self =>
         StandardMuscle.motor_unit_count self = -2
         /\ Stub.fibers_count (Muscle._fibers (StandardMuscle.base self)) = -2
     | Raise _ => False
     end
  /\ option_map Qfloor (float_value (-1 / (0.028 * 17.66))%float) = Some (-3)
  /\ Qfloor (-1 / ((28 # 1000) * (1766 # 100))) = -3
  /\ -2 <> -3.
Proof. vm_compute. repeat split. intros Hd. discriminate Hd. Qed.
